(** * BLE sniffer: a shallow embedding of [ble_sniffer.py] and [config.py]

    The development follows the source top to bottom: Python values and
    exceptions, the unbounded [queue.Queue], the buffered CSV file, the
    run folder naming of [ensure_output_folder], the packet handler
    [detection_callback], the coroutine [scan_loop] and the entry point
    [main].  Effects are threaded through a small state-and-exception
    monad over a [World] holding the console, the event queue, the file
    system and the trace of radio calls. *)

From Stdlib Require Import ZArith NArith Ascii String List Bool Lia.
From stdpp Require Import base gmap strings list.

Local Open Scope string_scope.
Local Open Scope list_scope.
Local Open Scope Z_scope.

(** ** Strings: [str.lower] on ASCII identifiers *)

Module Str.

(** [str.lower] on one character.  Device addresses are MAC addresses or
    UUIDs, so the characters are ASCII: the 26 capitals move down by 32
    and every other character is left as it is. *)
Definition lower_ascii (c : ascii) : ascii :=
  let n := N_of_ascii c in
  if ((65 <=? n) && (n <=? 90))%N then ascii_of_N (n + 32) else c.

(** [s.lower()] *)
Fixpoint lower (s : string) : string :=
  match s with
  | EmptyString => EmptyString
  | String c r => String (lower_ascii c) (lower r)
  end.

Definition is_upper (c : ascii) : bool :=
  let n := N_of_ascii c in ((65 <=? n) && (n <=? 90))%N.

Definition is_lower (c : ascii) : bool :=
  let n := N_of_ascii c in ((97 <=? n) && (n <=? 122))%N.

(** Two characters that are the same letter in the two cases: a capital
    and the small letter 32 code points above it. *)
Definition case_pair (c d : ascii) : Prop :=
  is_upper c = true /\ N_of_ascii d = (N_of_ascii c + 32)%N.

(** Two strings that differ only in letter case: same length, and at
    every position the same character or the same letter in the two
    cases. *)
Inductive differ_only_in_case : string -> string -> Prop :=
| doc_nil : differ_only_in_case EmptyString EmptyString
| doc_same c r1 r2 :
    differ_only_in_case r1 r2 ->
    differ_only_in_case (String c r1) (String c r2)
| doc_up_low c d r1 r2 :
    case_pair c d -> differ_only_in_case r1 r2 ->
    differ_only_in_case (String c r1) (String d r2)
| doc_low_up c d r1 r2 :
    case_pair d c -> differ_only_in_case r1 r2 ->
    differ_only_in_case (String c r1) (String d r2).

(** [s.strip()] for the ASCII blank characters, used only to state what
    trimming would have done. *)
Definition is_blank (c : ascii) : bool :=
  let n := N_of_ascii c in
  ((n =? 32) || ((9 <=? n) && (n <=? 13)))%N.

Fixpoint lstrip (s : string) : string :=
  match s with
  | EmptyString => EmptyString
  | String c r => if is_blank c then lstrip r else s
  end.

Fixpoint rstrip (s : string) : string :=
  match s with
  | EmptyString => EmptyString
  | String c r =>
      match rstrip r with
      | EmptyString => if is_blank c then EmptyString else String c EmptyString
      | r' => String c r'
      end
  end.

Definition strip (s : string) : string := rstrip (lstrip s).

End Str.

(** ** Python values, truthiness and exceptions *)

(** The values the handler meets in the fields of a device and of an
    advertisement: [None], a [str] or an [int]. *)
Inductive pyval :=
| PyNone
| PyStr (s : string)
| PyInt (z : Z).

#[global] Instance pyval_eq_dec : EqDecision pyval.
Proof. solve_decision. Defined.

(** [bool(v)] *)
Definition truthy (v : pyval) : bool :=
  match v with
  | PyNone => false
  | PyStr s => negb (String.eqb s "")
  | PyInt z => negb (z =? 0)
  end.

(** [a or b] *)
Definition py_or (a b : pyval) : pyval := if truthy a then a else b.

(** The exception classes the program can meet.  [KeyboardInterrupt] and
    [CancelledError] derive from [BaseException] only; the others derive
    from [Exception]. *)
Inductive exn :=
| KeyboardInterrupt
| CancelledError
| AttributeError (msg : string)
| ValueError (msg : string)
| OSError (msg : string)
| BleakError (msg : string).

#[global] Instance exn_eq_dec : EqDecision exn.
Proof. solve_decision. Defined.

(** [isinstance(e, Exception)] *)
Definition isinstance_Exception (e : exn) : bool :=
  match e with
  | KeyboardInterrupt | CancelledError => false
  | _ => true
  end.

(** ** Outcomes and the state-and-exception monad *)

(** A statement returns, raises, or never returns because it blocks. *)
Inductive result (A : Type) :=
| Normal (a : A)
| Raise (e : exn)
| Blocks.
Arguments Normal {A} a.
Arguments Raise {A} e.
Arguments Blocks {A}.

Module PyM.

Definition M (S A : Type) : Type := S -> result A * S.

Definition ret {S A} (a : A) : M S A := fun s => (Normal a, s).

Definition raise {S A} (e : exn) : M S A := fun s => (Raise e, s).

Definition bind {S A B} (m : M S A) (k : A -> M S B) : M S B :=
  fun s =>
    match m s with
    | (Normal a, s') => k a s'
    | (Raise e, s') => (Raise e, s')
    | (Blocks, s') => (Blocks, s')
    end.

(** [try: body  except Exception as exc: handler(exc)] *)
Definition try_except_Exception {S A} (body : M S A) (handler : exn -> M S A)
  : M S A :=
  fun s =>
    match body s with
    | (Raise e, s') =>
        if isinstance_Exception e then handler e s' else (Raise e, s')
    | r => r
    end.

(** [try: body  finally: cleanup].  The cleanup runs after a return and
    after a raise; when it raises itself, its exception replaces the
    pending outcome. *)
Definition try_finally {S A} (body : M S A) (cleanup : M S unit) : M S A :=
  fun s =>
    match body s with
    | (Blocks, s') => (Blocks, s')
    | (r, s') =>
        match cleanup s' with
        | (Normal _, s'') => (r, s'')
        | (Raise e, s'') => (Raise e, s'')
        | (Blocks, s'') => (Blocks, s'')
        end
    end.

(** An outcome computed without touching the state. *)
Definition lift {S A} (r : result A) : M S A := fun s => (r, s).

Definition modify {S} (f : S -> S) : M S unit := fun s => (Normal tt, f s).

Definition gets {S A} (f : S -> A) : M S A := fun s => (Normal (f s), s).

End PyM.
Import PyM.

Declare Scope py_scope.
Delimit Scope py_scope with py.
Notation "x <- m ;; k" := (bind m (fun x => k))
  (at level 100, m at next level, right associativity) : py_scope.
Notation "m ;;; k" := (bind m (fun _ => k))
  (at level 100, right associativity) : py_scope.
Local Open Scope py_scope.

(** [v.lower()]: defined on [str]; any other value has no such method. *)
Definition py_lower (v : pyval) : result string :=
  match v with
  | PyStr s => Normal (Str.lower s)
  | PyNone => Raise (AttributeError "'NoneType' object has no attribute 'lower'")
  | PyInt _ => Raise (AttributeError "'int' object has no attribute 'lower'")
  end.

(** ** The data the handler sees and produces *)

(** [bleak]'s device object: the fields the handler reads. *)
Record BLEDevice := { address : pyval; name : pyval }.

(** [bleak]'s advertisement object: the field the handler reads. *)
Record AdvertisementData := { rssi : pyval }.

(** The dictionary put on the queue for one matched packet. *)
Record Event := {
  ev_timestamp_ns : Z;
  ev_mac : string;
  ev_rssi : pyval;
  ev_name : pyval
}.

(** One CSV row: the list of cells handed to [writer.writerow]. *)
Abbreviation Row := (list pyval).

(** The header row written when the file is opened (line 51). *)
Definition header_row : Row :=
  [PyStr "timestamp_ns"; PyStr "mac"; PyStr "rssi"; PyStr "name"].

(** The row written for one event (line 84). *)
Definition event_row (ev : Event) : Row :=
  [PyInt (ev_timestamp_ns ev); PyStr (ev_mac ev); ev_rssi ev; ev_name ev].

(** What [print] sends to the console, one constructor per [print] call of
    the source:
    - [LNoTargets]: "No target MACs found in config.TARGET_MACS. Nothing to scan for."
    - [LEvent]: "Time Stamp (ns): .. | MAC:.. | RSSI: .. | Name: .."
    - [LPacketError]: "Error processing advertisement: .."
    - [LStarted]: "BLE scanning started. Press Ctrl+C to stop."
    - [LScanError]: "BLE scanning error: .."
    - [LStoppedByUser]: "Scanning stopped by user."
    - [LUnexpected]: "Unexpected error: .." *)
Inductive Line :=
| LNoTargets
| LEvent (timestamp_ns : Z) (mac : string) (rssi device_name : pyval)
| LPacketError (exc : exn)
| LStarted
| LScanError (exc : exn)
| LStoppedByUser
| LUnexpected (exc : exn).

(** ** [queue.Queue] *)

Module Queue.

(** [Queue(maxsize)]: the items in arrival order.  As in the standard
    library, a [maxsize] of zero or less means no bound. *)
Record t := { maxsize : Z; items : list Event }.

(** [Queue()] *)
Definition new : t := {| maxsize := 0; items := [] |}.

Definition qsize (q : t) : Z := Z.of_nat (length (items q)).

(** [q.full()] *)
Definition full (q : t) : bool := (0 <? maxsize q) && (maxsize q <=? qsize q).

(** [q.put(item)] with the default [block=True]: [None] when the call
    has to wait for a free slot. *)
Definition put (item : Event) (q : t) : option t :=
  if full q then None
  else Some {| maxsize := maxsize q; items := items q ++ [item] |}.

End Queue.

(** ** The buffered output file *)

(** A file opened for writing: the rows the operating system has, the rows
    still in the writer's buffer, and whether the handle is closed. *)
Record File := { durable : list Row; buffered : list Row; closed : bool }.

(** What a reader of the file will see once the buffer is written. *)
Definition file_rows (f : File) : list Row := durable f ++ buffered f.

(** Calls made on the radio, in order. *)
Inductive RadioCall := RNew | RStart | RStop.

(** ** The world the program runs in *)

Record World := {
  console : list Line;
  EVENT_QUEUE : Queue.t;
  dirs : gset string;
  files : gmap string File;
  radio : list RadioCall
}.

Definition set_console (c : list Line) (w : World) : World :=
  {| console := c; EVENT_QUEUE := EVENT_QUEUE w; dirs := dirs w;
     files := files w; radio := radio w |}.

Definition set_queue (q : Queue.t) (w : World) : World :=
  {| console := console w; EVENT_QUEUE := q; dirs := dirs w;
     files := files w; radio := radio w |}.

Definition set_dirs (d : gset string) (w : World) : World :=
  {| console := console w; EVENT_QUEUE := EVENT_QUEUE w; dirs := d;
     files := files w; radio := radio w |}.

Definition set_files (fs : gmap string File) (w : World) : World :=
  {| console := console w; EVENT_QUEUE := EVENT_QUEUE w; dirs := dirs w;
     files := fs; radio := radio w |}.

Definition set_radio (r : list RadioCall) (w : World) : World :=
  {| console := console w; EVENT_QUEUE := EVENT_QUEUE w; dirs := dirs w;
     files := files w; radio := r |}.

(** The world at interpreter start: module level line 29 has run. *)
Definition initial_world : World :=
  {| console := []; EVENT_QUEUE := Queue.new; dirs := ∅; files := ∅;
     radio := [] |}.

(** The rows of the file at [path], empty when there is none. *)
Definition rows_at (path : string) (w : World) : list Row :=
  match files w !! path with
  | Some f => file_rows f
  | None => []
  end.

(** ** Primitive statements *)

(** [print(line)] *)
Definition print (l : Line) : M World unit :=
  modify (fun w => set_console (console w ++ [l]) w).

(** [EVENT_QUEUE.put(item)] *)
Definition EVENT_QUEUE_put (item : Event) : M World unit :=
  fun w =>
    match Queue.put item (EVENT_QUEUE w) with
    | Some q => (Normal tt, set_queue q w)
    | None => (Blocks, w)
    end.

(** [writer.writerow(row)] on the file object [f] (named by its path).
    [fault] is the operating system refusing the write. *)
Definition writerow (f : string) (row : Row) (fault : option string)
  : M World unit :=
  fun w =>
    match files w !! f with
    | Some fl =>
        if closed fl then (Raise (ValueError "I/O operation on closed file."), w)
        else
          match fault with
          | Some msg => (Raise (OSError msg), w)
          | None =>
              (Normal tt,
               set_files (<[f := {| durable := durable fl;
                                    buffered := buffered fl ++ [row];
                                    closed := false |}]> (files w)) w)
          end
    | None => (Raise (ValueError "I/O operation on closed file."), w)
    end.

(** [f.flush()]: the buffered rows go to the operating system. *)
Definition flush (f : string) (fault : option string) : M World unit :=
  fun w =>
    match files w !! f with
    | Some fl =>
        if closed fl then (Raise (ValueError "I/O operation on closed file."), w)
        else
          match fault with
          | Some msg => (Raise (OSError msg), w)
          | None =>
              (Normal tt,
               set_files (<[f := {| durable := durable fl ++ buffered fl;
                                    buffered := [];
                                    closed := false |}]> (files w)) w)
          end
    | None => (Raise (ValueError "I/O operation on closed file."), w)
    end.

(** [f.close()], run when the [with] block is left: writes the buffer out
    and closes the handle. *)
Definition close (f : string) : M World unit :=
  modify (fun w =>
    match files w !! f with
    | Some fl =>
        set_files (<[f := {| durable := durable fl ++ buffered fl;
                             buffered := [];
                             closed := true |}]> (files w)) w
    | None => w
    end).

(** [open(path, "w", newline="")]: creates or truncates the file.
    [fault] is the operating system refusing to open it. *)
Definition open_w (path : string) (fault : option string) : M World string :=
  fun w =>
    match fault with
    | Some msg => (Raise (OSError msg), w)
    | None =>
        (Normal path,
         set_files (<[path := {| durable := []; buffered := [];
                                 closed := false |}]> (files w)) w)
    end.

(** [with open(path, "w", newline="") as f: body(f)] *)
Definition with_open_w {A} (path : string) (fault : option string)
    (body : string -> M World A) : M World A :=
  f <- open_w path fault ;;
  try_finally (body f) (close f).

(** ** Run folder naming: [datetime.now().strftime] and [os.path.join] *)

Module RunPath.

(** The naive local time returned by [datetime.now()]. *)
Record datetime := {
  year : N; month : N; day : N;
  hour : N; minute : N; second : N;
  microsecond : N
}.

(** The field ranges of a [datetime] whose year prints on four digits
    and whose other fields print on two. *)
Definition valid (d : datetime) : Prop :=
  (1000 <= year d /\ year d < 10000 /\ month d < 100 /\ day d < 100 /\
   hour d < 100 /\ minute d < 100 /\ second d < 100)%N.

Definition digit (n : N) : ascii := ascii_of_N (48 + n).

(** [%m], [%d], [%H], [%M], [%S]: two digits, zero padded. *)
Definition pad2 (n : N) : string :=
  String (digit (n / 10)) (String (digit (n mod 10)) EmptyString).

(** [%Y]: four digits, zero padded. *)
Definition pad4 (n : N) : string :=
  String (digit (n / 1000))
    (String (digit ((n / 100) mod 10))
       (String (digit ((n / 10) mod 10))
          (String (digit (n mod 10)) EmptyString))).

(** [d.strftime("%Y%m%d_%H%M%S")] *)
Definition strftime (d : datetime) : string :=
  pad4 (year d) +:+ pad2 (month d) +:+ pad2 (day d) +:+ "_" +:+
  pad2 (hour d) +:+ pad2 (minute d) +:+ pad2 (second d).

Definition starts_with_sep (s : string) : bool :=
  match s with
  | String c _ => Ascii.eqb c "/"
  | EmptyString => false
  end.

Fixpoint ends_with_sep (s : string) : bool :=
  match s with
  | EmptyString => false
  | String c EmptyString => Ascii.eqb c "/"
  | String _ r => ends_with_sep r
  end.

(** One step of [posixpath.join]: an absolute component replaces what
    came before; otherwise it is appended after one separator. *)
Definition join2 (path b : string) : string :=
  if starts_with_sep b then b
  else if String.eqb path "" || ends_with_sep path then path +:+ b
  else path +:+ "/" +:+ b.

(** [os.path.join(a, *p)] *)
Definition join (a : string) (p : list string) : string :=
  fold_left join2 p a.

(** Lines 37 to 40 without the directory creation: the run folder and
    the CSV path for a start time. *)
Definition run_folder (BASE_DIR : string) (now : datetime) : string :=
  join BASE_DIR ["data"; "runs"; strftime now].

Definition csv_path (BASE_DIR : string) (now : datetime) : string :=
  join (run_folder BASE_DIR now)
       ["ble_events_" +:+ strftime now +:+ ".csv"].

(** Two start times in the same calendar second. *)
Definition same_second (d1 d2 : datetime) : Prop :=
  year d1 = year d2 /\ month d1 = month d2 /\ day d1 = day d2 /\
  hour d1 = hour d2 /\ minute d1 = minute d2 /\ second d1 = second d2.

End RunPath.

(** [os.makedirs(path, exist_ok=True)]: the folder and its two parents
    under [BASE_DIR] exist afterwards; an existing folder is not an error.
    The operating system refusing ([fault]) raises [OSError]. *)
Definition makedirs (BASE_DIR path : string) (fault : option string)
  : M World unit :=
  fun w =>
    match fault with
    | Some msg => (Raise (OSError msg), w)
    | None =>
        (Normal tt,
         set_dirs ({[ RunPath.join BASE_DIR ["data"];
                      RunPath.join BASE_DIR ["data"; "runs"];
                      path ]} ∪ dirs w) w)
    end.

(** [ensure_output_folder()] (lines 35 to 41).  [now] is what
    [datetime.now()] returns. *)
Definition ensure_output_folder (BASE_DIR : string) (now : RunPath.datetime)
    (makedirs_fault : option string) : M World string :=
  let run_timestamp := RunPath.strftime now in
  let run_folder := RunPath.join BASE_DIR ["data"; "runs"; run_timestamp] in
  makedirs BASE_DIR run_folder makedirs_fault ;;;
  let csv_path :=
    RunPath.join run_folder ["ble_events_" +:+ run_timestamp +:+ ".csv"] in
  ret csv_path.

(** ** The packet handler *)

(** One invocation of the handler by the radio stack: the two arguments,
    the reading of [time.time_ns()] and whether the operating system
    refuses the row write or the flush of this invocation. *)
Record Arrival := {
  device : BLEDevice;
  advertisement_data : AdvertisementData;
  time_ns : Z;
  write_fault : option string;
  flush_fault : option string
}.

(** Line 63: [(device.address or "").lower()], the normalized identifier
    of the packet. *)
Definition packet_mac (a : Arrival) : result string :=
  py_lower (py_or (address (device a)) (PyStr "")).

(** The body of the [try] block (lines 62 to 85). *)
Definition detection_body (target_macs : gset string) (f : string)
    (a : Arrival) : M World unit :=
  mac <- lift (packet_mac a) ;;
  if bool_decide (mac ∈ target_macs) then
    let timestamp_ns := time_ns a in
    let rssi := rssi (advertisement_data a) in
    let device_name := py_or (name (device a)) (PyStr "Unknown") in
    print (LEvent timestamp_ns mac rssi device_name) ;;;
    EVENT_QUEUE_put {| ev_timestamp_ns := timestamp_ns; ev_mac := mac;
                       ev_rssi := rssi; ev_name := device_name |} ;;;
    writerow f [PyInt timestamp_ns; PyStr mac; rssi; device_name]
             (write_fault a) ;;;
    flush f (flush_fault a)
  else ret tt.

(** [detection_callback(device, advertisement_data)] (lines 59 to 88),
    closed over [target_macs], [writer] and [f]. *)
Definition detection_callback (target_macs : gset string) (f : string)
    (a : Arrival) : M World unit :=
  try_except_Exception
    (detection_body target_macs f a)
    (fun exc => print (LPacketError exc)).

(** The radio stack calling the handler for each packet in turn.  An
    exception leaving the handler would stop the delivery. *)
Fixpoint deliver (callback : Arrival -> M World unit) (l : list Arrival)
  : M World unit :=
  match l with
  | [] => ret tt
  | a :: l' => callback a ;;; deliver callback l'
  end.

(** ** The configuration module *)

(** The namespace of [config.py]: attribute names to the lists they hold. *)
Abbreviation Module_ns := (gmap string (list string)).

(** [config.py] as shipped. *)
Definition config_py : Module_ns := {[ "TARGET_MACS" := ["60:C0:BF:49:2A:E9"] ]}.

(** [getattr(module, name, default)] *)
Definition getattr_default (m : Module_ns) (attr : string)
    (default : list string) : list string :=
  match m !! attr with
  | Some v => v
  | None => default
  end.

(** Line 54: [{m.lower() for m in getattr(config, "TARGET_MACS", [])}] *)
Definition target_macs_of (config : Module_ns) : gset string :=
  list_to_set (map Str.lower (getattr_default config "TARGET_MACS" [])).

(** ** The scan session *)

(** What the surroundings do during one run: the start time, the faults
    of the operating system and of the radio, the packets delivered while
    the coroutine sleeps in its loop, and the exception that ends the loop
    at [await asyncio.sleep(1)] ([CancelledError] on Ctrl+C). *)
Record Env := {
  now : RunPath.datetime;
  makedirs_fault : option string;
  open_fault : option string;
  start_fault : option exn;
  arrivals : list Arrival;
  loop_exit : exn;
  stop_fault : option exn
}.

(** [BleakScanner(detection_callback)]: records the handler. *)
Definition scanner_new : M World unit :=
  modify (fun w => set_radio (radio w ++ [RNew]) w).

(** [await scanner.start()] *)
Definition scanner_start (fault : option exn) : M World unit :=
  modify (fun w => set_radio (radio w ++ [RStart]) w) ;;;
  match fault with
  | Some e => raise e
  | None => ret tt
  end.

(** [await scanner.stop()] *)
Definition scanner_stop (fault : option exn) : M World unit :=
  modify (fun w => set_radio (radio w ++ [RStop]) w) ;;;
  match fault with
  | Some e => raise e
  | None => ret tt
  end.

(** Lines 51 to 91: the header row, the watchlist notice and the scanner
    object. *)
Definition session_prelude (config : Module_ns) (f : string) : M World unit :=
  writerow f header_row None ;;;
  let target_macs := target_macs_of config in
  (if bool_decide (target_macs = ∅) then print LNoTargets else ret tt) ;;;
  scanner_new.

(** Lines 93 to 98, the [try] block: start the radio, then sleep in the
    loop while the radio stack delivers packets, until an exception is
    thrown into the sleeping coroutine. *)
Definition session_running (config : Module_ns) (env : Env) (f : string)
  : M World unit :=
  scanner_start (start_fault env) ;;;
  print LStarted ;;;
  deliver (detection_callback (target_macs_of config) f) (arrivals env) ;;;
  raise (loop_exit env).

(** Lines 104 to 107, the [finally] block. *)
Definition session_teardown (env : Env) : M World unit :=
  try_except_Exception
    (scanner_stop (stop_fault env))
    (fun _ => ret tt).

(** Lines 51 to 107: the body of the [with] block. *)
Definition scan_session (config : Module_ns) (env : Env) (f : string)
  : M World unit :=
  session_prelude config f ;;;
  try_finally
    (try_except_Exception
       (session_running config env f)
       (fun exc => print (LScanError exc)))
    (session_teardown env).

(** [scan_loop()] (lines 44 to 107) *)
Definition scan_loop (BASE_DIR : string) (config : Module_ns) (env : Env)
  : M World unit :=
  csv_path <- ensure_output_folder BASE_DIR (now env) (makedirs_fault env) ;;
  with_open_w csv_path (open_fault env) (scan_session config env).

(** [asyncio.run(coro)]: the coroutine's outcome, except that the
    cancellation by which an interrupt reaches the coroutine comes out as
    [KeyboardInterrupt]. *)
Definition asyncio_run {A} (coro : M World A) : M World A :=
  fun w =>
    match coro w with
    | (Raise CancelledError, w') => (Raise KeyboardInterrupt, w')
    | r => r
    end.

(** [main()] (lines 110 to 117) *)
Definition main (BASE_DIR : string) (config : Module_ns) (env : Env)
  : M World unit :=
  fun w =>
    match asyncio_run (scan_loop BASE_DIR config env) w with
    | (Raise KeyboardInterrupt, w') => print LStoppedByUser w'
    | (Raise e, w') =>
        if isinstance_Exception e then print (LUnexpected e) w'
        else (Raise e, w')
    | r => r
    end.

(** The exit status of the interpreter after line 120: 0 when the module
    ran to its end, 1 when an exception left it, none while it hangs. *)
Definition exit_status (r : result unit) : option Z :=
  match r with
  | Normal _ => Some 0
  | Raise _ => Some 1
  | Blocks => None
  end.


(** ** Vocabulary of the properties *)

(** The queue of the world is one built by [Queue()]. *)
Definition queue_from_line_29 (w : World) : Prop :=
  Queue.maxsize (EVENT_QUEUE w) = Queue.maxsize Queue.new.

(** The exception a console line reports, if it reports one. *)
Definition line_exc (l : Line) : option exn :=
  match l with
  | LPacketError e | LScanError e | LUnexpected e => Some e
  | _ => None
  end.

(** Whether a console line is the line of an event. *)
Definition is_event_line (l : Line) : bool :=
  match l with
  | LEvent _ _ _ _ => true
  | _ => false
  end.

(** The same surroundings with another outcome of the stop call. *)
Definition with_stop_fault (env : Env) (fault : option exn) : Env :=
  {| now := now env; makedirs_fault := makedirs_fault env;
     open_fault := open_fault env; start_fault := start_fault env;
     arrivals := arrivals env; loop_exit := loop_exit env;
     stop_fault := fault |}.


(** The events a fault-free delivery of the packets captures, in order:
    one per packet whose normalized identifier is on the watchlist. *)
Definition event_of (target_macs : gset string) (a : Arrival) : list Event :=
  match packet_mac a with
  | Normal mac =>
      if bool_decide (mac ∈ target_macs) then
        [{| ev_timestamp_ns := time_ns a; ev_mac := mac;
            ev_rssi := rssi (advertisement_data a);
            ev_name := py_or (name (device a)) (PyStr "Unknown") |}]
      else []
  | _ => []
  end.

Definition events_of (target_macs : gset string) (l : list Arrival)
  : list Event :=
  concat (map (event_of target_macs) l).


(** [n] enqueues in a row on one queue; [None] when one of them blocks. *)
Fixpoint put_all (l : list Event) (q : Queue.t) : option Queue.t :=
  match l with
  | [] => Some q
  | ev :: l' =>
      match Queue.put ev q with
      | Some q' => put_all l' q'
      | None => None
      end
  end.

(** What one handler call added for the three consumers of the file [f]:
    console lines, queue entries and file rows. *)
Definition produced (f : string) (w w' : World) (cl : list Line)
    (ql : list Event) (rl : list Row) : Prop :=
  console w' = console w ++ cl /\
  Queue.items (EVENT_QUEUE w') = Queue.items (EVENT_QUEUE w) ++ ql /\
  rows_at f w' = rows_at f w ++ rl.

(** The file [f] is open and holds [rows], flushed or not. *)
Definition open_with (f : string) (rows : list Row) (w : World) : Prop :=
  exists fl, files w !! f = Some fl /\ closed fl = false /\
             file_rows fl = rows.

(** The exception that leaves the [try] block of the session: the one of
    the failed start, or the one thrown into the sleeping loop. *)
Definition session_exit (env : Env) : exn :=
  match start_fault env with
  | Some e => e
  | None => loop_exit env
  end.

(** Line 99 to 101 applied to the exception [x] leaving the [try] block in
    world [wx]. *)
Definition caught (x : exn) (wx : World) : result unit * World :=
  if isinstance_Exception x
  then (Normal tt, set_console (console wx ++ [LScanError x]) wx)
  else (Raise x, wx).

(** Lines 102 to 107 applied to a pending outcome. *)
Definition torn_down (fault : option exn) (rw : result unit * World)
  : result unit * World :=
  let w' := set_radio (radio rw.2 ++ [RStop]) rw.2 in
  match fault with
  | Some e => if isinstance_Exception e then (rw.1, w') else (Raise e, w')
  | None => (rw.1, w')
  end.

(** The world once the folders are made and the output file is opened. *)
Definition world_opened (BASE_DIR : string) (env : Env) (w : World) : World :=
  let w1 := set_dirs ({[ RunPath.join BASE_DIR ["data"];
                         RunPath.join BASE_DIR ["data"; "runs"];
                         RunPath.run_folder BASE_DIR (now env) ]} ∪ dirs w) w in
  set_files (<[RunPath.csv_path BASE_DIR (now env) :=
                 {| durable := []; buffered := []; closed := false |}]>
               (files w1)) w1.

(** The world once the output file is open and the scanner object built:
    the folders exist, the file holds the unflushed header row and the
    notice is printed if the watchlist is empty. *)
Definition world_ready (BASE_DIR : string) (config : Module_ns) (env : Env)
    (w : World) : World :=
  {| console :=
       console w ++
       (if bool_decide (target_macs_of config = ∅) then [LNoTargets] else []);
     EVENT_QUEUE := EVENT_QUEUE w;
     dirs := {[ RunPath.join BASE_DIR ["data"];
                RunPath.join BASE_DIR ["data"; "runs"];
                RunPath.run_folder BASE_DIR (now env) ]} ∪ dirs w;
     files := <[RunPath.csv_path BASE_DIR (now env) :=
                  {| durable := []; buffered := [header_row];
                     closed := false |}]> (files w);
     radio := radio w ++ [RNew] |}.

(** The world in which the handler starts to receive packets. *)
Definition world_started (w : World) : World :=
  set_console (console (set_radio (radio w ++ [RStart]) w) ++ [LStarted])
    (set_radio (radio w ++ [RStart]) w).

(** The world in which the exception [session_exit] leaves the [try]
    block. *)
Definition world_exit (config : Module_ns) (env : Env) (f : string)
    (w : World) : World :=
  match start_fault env with
  | Some _ => set_radio (radio w ++ [RStart]) w
  | None =>
      (deliver (detection_callback (target_macs_of config) f) (arrivals env)
         (world_started w)).2
  end.

(** [f.close()] as a function on worlds. *)
Definition closed_world (f : string) (w : World) : World := (close f w).2.

(** The console of [w'] is the one of [w] followed by lines none of which
    is the line of an event. *)
Definition console_grows_quietly (w w' : World) : Prop :=
  exists cl, console w' = console w ++ cl /\
             List.filter is_event_line cl = [].

(** Runs the handler symbolically through all of its branches. *)
Ltac handler_cases :=
  unfold detection_callback, try_except_Exception, detection_body, bind,
    lift, ret, print, modify, EVENT_QUEUE_put, Queue.put, writerow, flush;
  simpl;
  repeat (first [ rewrite lookup_insert_eq | case_match ]; simpl in *;
          simplify_eq).

(** Rewrites the rows of a file after writes and flushes. *)
Ltac file_rows_tac :=
  unfold rows_at, file_rows; simpl;
  repeat (rewrite ?lookup_insert_eq; simpl);
  repeat match goal with H : files _ !! _ = _ |- _ => rewrite H end;
  simpl; rewrite ?app_nil_r, <- ?app_assoc; try reflexivity.

(** The console line printed for an event (line 73). *)
Definition line_of_event (ev : Event) : Line :=
  LEvent (ev_timestamp_ns ev) (ev_mac ev) (ev_rssi ev) (ev_name ev).

(** The event lines of a console, in order. *)
Definition event_lines (c : list Line) : list Line :=
  List.filter is_event_line c.

(** The events of a watched packet whose row the operating system
    accepts; a refused flush does not count against the row. *)
Definition written_of (target_macs : gset string) (a : Arrival) : list Event :=
  match write_fault a with
  | None => event_of target_macs a
  | Some _ => []
  end.

Definition written_events (target_macs : gset string) (l : list Arrival)
  : list Event :=
  concat (map (written_of target_macs) l).

(** The events a run captures: none when the radio does not start. *)
Definition captured (config : Module_ns) (env : Env) : list Event :=
  match start_fault env with
  | Some _ => []
  | None => events_of (target_macs_of config) (arrivals env)
  end.

(** The events of a run whose rows reach the file. *)
Definition written (config : Module_ns) (env : Env) : list Event :=
  match start_fault env with
  | Some _ => []
  | None => written_events (target_macs_of config) (arrivals env)
  end.

(** A statement whose every run relates the world before to the world
    after by [R], whatever its outcome. *)
Definition frame {A} (R : World -> World -> Prop) (m : M World A) : Prop :=
  forall w, R w (m w).2.

(** From [w] to [w'] nothing is taken away and no file but [p] is
    touched: the console and the queue are extended at their ends, the
    bound of the queue is kept, the folders are kept, and every file
    other than [p] is as it was. *)
Definition extends (p : string) (w w' : World) : Prop :=
  console w `prefix_of` console w' /\
  Queue.items (EVENT_QUEUE w) `prefix_of` Queue.items (EVENT_QUEUE w') /\
  dirs w ⊆ dirs w' /\
  (forall q, q <> p -> files w' !! q = files w !! q).

(** A base directory as [os.path.abspath] returns it below the root: not
    empty, no separator at its end. *)
Definition plain_dir (BASE_DIR : string) : Prop :=
  BASE_DIR <> "" /\ RunPath.ends_with_sep BASE_DIR = false.

(** ** Concrete runs *)

Module Demo.

Definition BASE_DIR : string := "/home/pi/ble".

(** 4 November 2026, 09:05:07, one microsecond into the second. *)
Definition t_early : RunPath.datetime :=
  {| RunPath.year := 2026; RunPath.month := 11; RunPath.day := 4;
     RunPath.hour := 9; RunPath.minute := 5; RunPath.second := 7;
     RunPath.microsecond := 1 |}.

(** The same second, half a second later. *)
Definition t_late : RunPath.datetime :=
  {| RunPath.year := 2026; RunPath.month := 11; RunPath.day := 4;
     RunPath.hour := 9; RunPath.minute := 5; RunPath.second := 7;
     RunPath.microsecond := 500000 |}.

(** One second after [t_early]. *)
Definition t_next : RunPath.datetime :=
  {| RunPath.year := 2026; RunPath.month := 11; RunPath.day := 4;
     RunPath.hour := 9; RunPath.minute := 5; RunPath.second := 8;
     RunPath.microsecond := 1 |}.

Definition packet (addr nm : pyval) (sig ts : Z) : Arrival :=
  {| device := {| address := addr; name := nm |};
     advertisement_data := {| rssi := PyInt sig |};
     time_ns := ts; write_fault := None; flush_fault := None |}.

(** The configured sensor, advertising in capitals. *)
Definition sensor : Arrival :=
  packet (PyStr "60:C0:BF:49:2A:E9") (PyStr "Sensor1") (-42) 1000.

(** A device that is not on the watchlist. *)
Definition other : Arrival :=
  packet (PyStr "11:22:33:44:55:66") (PyStr "Other") (-10) 2000.

(** The sensor again, without a name. *)
Definition sensor_again : Arrival :=
  packet (PyStr "60:c0:bf:49:2a:e9") PyNone (-40) 3000.

(** The sensor's address followed by a blank. *)
Definition sensor_padded : Arrival :=
  packet (PyStr "60:c0:bf:49:2a:e9 ") (PyStr "Sensor1") (-42) 4000.

(** A packet whose address is not a string. *)
Definition malformed : Arrival :=
  packet (PyInt 7) PyNone (-70) 5000.

(** The sensor, while the disk refuses the write. *)
Definition sensor_disk_full : Arrival :=
  {| device := {| address := PyStr "60:C0:BF:49:2A:E9"; name := PyNone |};
     advertisement_data := {| rssi := PyInt (-42) |};
     time_ns := 6000; write_fault := Some "No space left on device";
     flush_fault := None |}.

(** A run that ends by Ctrl+C after the given packets. *)
Definition interrupted (t : RunPath.datetime) (l : list Arrival) : Env :=
  {| now := t; makedirs_fault := None; open_fault := None;
     start_fault := None; arrivals := l; loop_exit := CancelledError;
     stop_fault := None |}.

(** A run whose radio cannot start. *)
Definition radio_fails : Env :=
  {| now := t_early; makedirs_fault := None; open_fault := None;
     start_fault := Some (BleakError "Bluetooth device is turned off");
     arrivals := []; loop_exit := CancelledError; stop_fault := None |}.

(** A run whose output folder cannot be created. *)
Definition folder_fails : Env :=
  {| now := t_early; makedirs_fault := Some "Permission denied";
     open_fault := None; start_fault := None; arrivals := [];
     loop_exit := CancelledError; stop_fault := None |}.

(** A run whose stop call fails. *)
Definition stop_error : exn := BleakError "adapter removed".

Definition stop_fails : Env :=
  with_stop_fault (interrupted t_early [sensor]) (Some stop_error).

(** A watchlist written in small letters, and an empty one. *)
Definition config_one : Module_ns :=
  {[ "TARGET_MACS" := ["aa:bb:cc:dd:ee:ff"] ]}.

Definition config_empty : Module_ns := {[ "TARGET_MACS" := [] ]}.

Definition config_without : Module_ns := ∅.

(** A new interpreter on the disk another run has left. *)
Definition next_process (w : World) : World :=
  set_files (files w) (set_dirs (dirs w) initial_world).

(** The sensor, while the disk refuses the flush. *)
Definition sensor_flush_refused : Arrival :=
  {| device := {| address := PyStr "60:C0:BF:49:2A:E9"; name := PyNone |};
     advertisement_data := {| rssi := PyInt (-41) |};
     time_ns := 7000; write_fault := None;
     flush_fault := Some "Input/output error" |}.

(** A run with a refused write, a refused flush and a malformed packet. *)
Definition faulty_run : Env :=
  interrupted t_early
    [sensor_disk_full; sensor_flush_refused; malformed; sensor].

(** A device without an address. *)
Definition nameless : Arrival := packet PyNone (PyStr "") (-80) 8000.

(** The watchlist of [config.py] written in small letters. *)
Definition config_small : Module_ns :=
  {[ "TARGET_MACS" := ["60:c0:bf:49:2a:e9"] ]}.

(** An output file of an earlier run, started one second later on the
    clock. *)
Definition earlier_file : File :=
  {| durable := [header_row]; buffered := []; closed := true |}.

Definition disk_with_earlier_run : World :=
  set_files {[ RunPath.csv_path BASE_DIR t_next := earlier_file ]}
    initial_world.

(** The two packets of the end-to-end scenario. *)
Definition sensor1 : Arrival :=
  packet (PyStr "AA:BB:CC:DD:EE:FF") (PyStr "Sensor1") (-42) 1000.

Definition stranger : Arrival :=
  packet (PyStr "11:22:33:44:55:66") (PyStr "Other") (-10) 2000.

Definition an_event : Event :=
  {| ev_timestamp_ns := 1; ev_mac := "60:c0:bf:49:2a:e9";
     ev_rssi := PyInt (-42); ev_name := PyStr "Unknown" |}.

End Demo.
(** * Properties *)

(** ** Lower-casing *)

Module StrFacts.
Import Str.

Lemma ascii_N_inj c d : N_of_ascii c = N_of_ascii d -> c = d.
Proof.
  intros H. rewrite <- (ascii_N_embedding c), <- (ascii_N_embedding d).
  now rewrite H.
Qed.

Lemma case_pair_lower c d : case_pair c d -> lower_ascii c = lower_ascii d.
Proof.
  intros [Hu Hd]. unfold is_upper in Hu. unfold lower_ascii.
  rewrite Hu. apply andb_true_iff in Hu as [H1 H2].
  apply N.leb_le in H1, H2.
  assert (Hd' : (((65 <=? N_of_ascii d) && (N_of_ascii d <=? 90)) = false)%N).
  { apply andb_false_iff. right. apply N.leb_gt. lia. }
  rewrite Hd'. apply ascii_N_inj.
  rewrite N_ascii_embedding by lia. lia.
Qed.

Lemma lower_differ_only_in_case r1 r2 :
  differ_only_in_case r1 r2 -> lower r1 = lower r2.
Proof.
  induction 1 as [|c r1 r2 _ IH|c d r1 r2 Hp _ IH|c d r1 r2 Hp _ IH];
    simpl; [reflexivity|now rewrite IH| |].
  - now rewrite (case_pair_lower _ _ Hp), IH.
  - now rewrite (case_pair_lower _ _ Hp), IH.
Qed.

Lemma lower_ascii_upper c :
  is_upper c = true -> lower_ascii c = ascii_of_N (N_of_ascii c + 32).
Proof. unfold is_upper, lower_ascii. now intros ->. Qed.

Lemma lower_ascii_not_upper c : is_upper c = false -> lower_ascii c = c.
Proof. unfold is_upper, lower_ascii. now intros ->. Qed.

Lemma lower_ascii_idem c : lower_ascii (lower_ascii c) = lower_ascii c.
Proof.
  destruct (is_upper c) eqn:E.
  - rewrite (lower_ascii_upper c E). apply lower_ascii_not_upper.
    unfold is_upper in *. apply andb_true_iff in E as [H1 H2].
    apply N.leb_le in H1, H2. rewrite N_ascii_embedding by lia.
    apply andb_false_iff. right. apply N.leb_gt. lia.
  - now rewrite !(lower_ascii_not_upper c E).
Qed.

Lemma lower_idem s : lower (lower s) = lower s.
Proof. induction s as [|c s IH]; simpl; [reflexivity|]. now rewrite lower_ascii_idem, IH. Qed.

End StrFacts.

(** ** The packet handler, case by case *)

Section Handler.

Variables (target_macs : gset string) (f : string).

Lemma py_or_str_lower r :
  py_lower (py_or (PyStr r) (PyStr "")) = Normal (Str.lower r).
Proof.
  unfold py_or, truthy. destruct (String.eqb r "") eqn:E; simpl; [|done].
  apply String.eqb_eq in E. by subst.
Qed.

Lemma packet_mac_raises a e :
  packet_mac a = Raise e -> isinstance_Exception e = true.
Proof.
  unfold packet_mac. destruct (py_or _ _); simpl; intros H;
    inversion H; done.
Qed.

Lemma packet_mac_returns a : packet_mac a <> Blocks.
Proof. unfold packet_mac. by destruct (py_or _ _). Qed.

(** A packet that is not on the watchlist leaves the world as it is. *)
Lemma detection_callback_unwatched a w mac :
  packet_mac a = Normal mac -> mac ∉ target_macs ->
  detection_callback target_macs f a w = (Normal tt, w).
Proof.
  intros Hm Hn. unfold detection_callback, try_except_Exception,
    detection_body, bind, lift. rewrite Hm.
  by rewrite bool_decide_eq_false_2.
Qed.

(** A packet whose address cannot be normalized is reported and costs
    nothing else. *)
Lemma detection_callback_bad_address a w e :
  packet_mac a = Raise e ->
  detection_callback target_macs f a w
  = (Normal tt, set_console (console w ++ [LPacketError e]) w).
Proof.
  intros Hm. unfold detection_callback, try_except_Exception,
    detection_body, bind, lift. rewrite Hm.
  by rewrite (packet_mac_raises _ _ Hm).
Qed.


End Handler.

(** ** C1: only watched identifiers produce event records *)

Section OnlyWatched.

Variables (target_macs : gset string) (f : string).

Lemma produced_nothing w : produced f w w [] [] [].
Proof. unfold produced. by rewrite !app_nil_r. Qed.

(** The outcome of the handler on a watched packet, stage by stage. *)
Lemma detection_callback_watched_produced a w mac :
  packet_mac a = Normal mac -> mac ∈ target_macs ->
  let ev := {| ev_timestamp_ns := time_ns a; ev_mac := mac;
               ev_rssi := rssi (advertisement_data a);
               ev_name := py_or (name (device a)) (PyStr "Unknown") |} in
  let line := LEvent (time_ns a) mac (ev_rssi ev) (ev_name ev) in
  let w' := (detection_callback target_macs f a w).2 in
  exists cl ql rl,
    produced f w w' cl ql rl /\
    (cl = [line] \/ exists e, cl = [line; LPacketError e]) /\
    (ql = [] \/ ql = [ev]) /\
    (rl = [] \/ rl = [event_row ev]).
Proof.
  intros Hm Hin. simpl.
  unfold detection_callback, try_except_Exception, detection_body, bind,
    lift. rewrite Hm. rewrite bool_decide_eq_true_2 by done.
  unfold print, modify, EVENT_QUEUE_put, Queue.put. simpl.
  destruct (Queue.full (EVENT_QUEUE w)); simpl.
  { eexists [_], [], []. unfold produced. simpl.
    rewrite !app_nil_r. eauto 10. }
  unfold writerow. simpl.
  destruct (files w !! f) as [fl|] eqn:Hf; simpl.
  2:{ eexists [_; _], [_], []. unfold produced. simpl.
      split; [|eauto 10]. split_and!; [by rewrite <- app_assoc|done|].
      file_rows_tac. }
  destruct (closed fl) eqn:Hc; simpl.
  { eexists [_; _], [_], []. unfold produced. simpl.
    split; [|eauto 10]. split_and!; [by rewrite <- app_assoc|done|].
    file_rows_tac. }
  destruct (write_fault a) as [msg|]; simpl.
  { eexists [_; _], [_], []. unfold produced. simpl.
    split; [|eauto 10]. split_and!; [by rewrite <- app_assoc|done|].
    file_rows_tac. }
  unfold flush. simpl. rewrite lookup_insert_eq. simpl.
  destruct (flush_fault a) as [msg|]; simpl.
  { eexists [_; _], [_], [_]. unfold produced. simpl.
    split; [|eauto 10]. split_and!; [by rewrite <- app_assoc|done|].
    file_rows_tac. }
  eexists [_], [_], [_]. unfold produced. simpl.
  split; [|eauto 10]. split_and!; [done|done|]. file_rows_tac.
Qed.

End OnlyWatched.

(** C1.  For every packet handed to the handler, whatever the state of
    the world: every event line printed, every entry put on the queue and
    every row written by this call carries the packet's normalized
    identifier, and that identifier is a member of the watchlist.  A
    packet whose identifier is not on the watchlist, or has none, thus
    gives the three consumers no event record. *)
Theorem detection_callback_only_watched
    (target_macs : gset string) (f : string) (a : Arrival) (w : World) :
  let w' := (detection_callback target_macs f a w).2 in
  exists cl ql rl,
    produced f w w' cl ql rl /\
    (forall ts mac r n, LEvent ts mac r n ∈ cl ->
       packet_mac a = Normal mac /\ mac ∈ target_macs) /\
    (forall ev, ev ∈ ql ->
       packet_mac a = Normal (ev_mac ev) /\ ev_mac ev ∈ target_macs) /\
    (forall row, row ∈ rl ->
       exists ev, row = event_row ev /\
         packet_mac a = Normal (ev_mac ev) /\ ev_mac ev ∈ target_macs).
Proof.
  simpl. destruct (packet_mac a) as [mac|e|] eqn:Hm.
  - destruct (decide (mac ∈ target_macs)) as [Hin|Hout].
    + destruct (detection_callback_watched_produced target_macs f a w mac Hm Hin)
        as (cl & ql & rl & Hp & Hcl & Hql & Hrl).
      exists cl, ql, rl. split; [exact Hp|]. split_and!.
      * intros ts mac' r n Hl. destruct Hcl as [-> | [e ->]].
        -- apply list_elem_of_singleton in Hl. by inversion Hl; subst.
        -- apply elem_of_cons in Hl as [Hl|Hl]; [by inversion Hl; subst|].
           by apply list_elem_of_singleton in Hl.
      * intros ev Hev. destruct Hql as [-> | ->].
        -- by apply elem_of_nil in Hev.
        -- by apply list_elem_of_singleton in Hev as ->.
      * intros row Hrow. destruct Hrl as [-> | ->].
        -- by apply elem_of_nil in Hrow.
        -- apply list_elem_of_singleton in Hrow as ->.
           eexists; split; [reflexivity|done].
    + rewrite (detection_callback_unwatched target_macs f a w mac Hm Hout).
      exists [], [], []. split; [apply produced_nothing|].
      split_and!; intros; by (exfalso; eapply elem_of_nil).
  - rewrite (detection_callback_bad_address target_macs f a w e Hm).
    exists [LPacketError e], [], []. split.
    + unfold produced, rows_at. simpl. by rewrite !app_nil_r.
    + split_and!; intros.
      * by match goal with H : _ ∈ [_] |- _ =>
             apply list_elem_of_singleton in H end.
      * by (exfalso; eapply elem_of_nil).
      * by (exfalso; eapply elem_of_nil).
  - by destruct (packet_mac_returns a).
Qed.

(** ** C5: no exception leaves the handler *)

Section Catches.

Variables (target_macs : gset string) (f : string).

(** Everything the [try] block can raise derives from [Exception]. *)
Lemma detection_body_raises a w e w1 :
  detection_body target_macs f a w = (Raise e, w1) ->
  isinstance_Exception e = true.
Proof.
  unfold detection_body, bind, lift.
  destruct (packet_mac a) as [mac|e0|] eqn:Hm.
  - case_bool_decide; [|by unfold ret].
    unfold print, modify, EVENT_QUEUE_put. simpl.
    destruct (Queue.put _ _); [|done]. simpl.
    unfold writerow. simpl.
    destruct (files w !! f) as [fl|]; simpl; [|by intros [= <- _]].
    destruct (closed fl); simpl; [by intros [= <- _]|].
    destruct (write_fault a); simpl; [by intros [= <- _]|].
    unfold flush. simpl. rewrite lookup_insert_eq. simpl.
    destruct (flush_fault a); simpl; [by intros [= <- _]|done].
  - intros [= <- _]. by apply (packet_mac_raises a).
  - done.
Qed.

(** The [try] block blocks only if the queue is full. *)
Lemma detection_body_blocks a w w1 :
  detection_body target_macs f a w = (Blocks, w1) ->
  Queue.full (EVENT_QUEUE w) = true.
Proof.
  unfold detection_body, bind, lift.
  destruct (packet_mac a) as [mac|e0|] eqn:Hm;
    [|done|by destruct (packet_mac_returns a)].
  case_bool_decide; [|by unfold ret].
  unfold print, modify, EVENT_QUEUE_put, Queue.put. simpl.
  destruct (Queue.full (EVENT_QUEUE w)); [done|]. simpl.
  unfold writerow. simpl.
  destruct (files w !! f) as [fl|]; simpl; [|done].
  destruct (closed fl); simpl; [done|].
  destruct (write_fault a); simpl; [done|].
  unfold flush. simpl. rewrite lookup_insert_eq. simpl.
  by destruct (flush_fault a).
Qed.

Lemma queue_from_line_29_not_full w :
  queue_from_line_29 w -> Queue.full (EVENT_QUEUE w) = false.
Proof. unfold queue_from_line_29, Queue.full. simpl. by intros ->. Qed.

(** The [try] block keeps the queue the one of line 29. *)
Lemma detection_body_keeps_queue a w :
  queue_from_line_29 w ->
  queue_from_line_29 (detection_body target_macs f a w).2.
Proof.
  intros Hq. unfold detection_body, bind, lift.
  destruct (packet_mac a) as [mac|e0|]; [|done|done].
  case_bool_decide; [|done].
  unfold print, modify, EVENT_QUEUE_put, Queue.put. simpl.
  rewrite (queue_from_line_29_not_full w Hq). simpl.
  unfold writerow. simpl.
  destruct (files w !! f) as [fl|]; simpl; [|done].
  destruct (closed fl); simpl; [done|].
  destruct (write_fault a); simpl; [done|].
  unfold flush. simpl. rewrite lookup_insert_eq. simpl.
  by destruct (flush_fault a).
Qed.

(** The handler returns, and keeps the queue the one of line 29. *)
Lemma detection_callback_returns a w :
  queue_from_line_29 w ->
  exists w', detection_callback target_macs f a w = (Normal tt, w') /\
             queue_from_line_29 w'.
Proof.
  intros Hq. unfold detection_callback, try_except_Exception.
  pose proof (detection_body_keeps_queue a w Hq) as Hk.
  destruct (detection_body target_macs f a w) as [[[]|e|] w1] eqn:Hb.
  - eauto.
  - rewrite (detection_body_raises a w e w1 Hb). eexists; split; [done|].
    exact Hk.
  - apply detection_body_blocks in Hb.
    by rewrite (queue_from_line_29_not_full w Hq) in Hb.
Qed.

(** The delivery of any list of packets reaches its end. *)
Lemma deliver_returns l w :
  queue_from_line_29 w ->
  exists w', deliver (detection_callback target_macs f) l w = (Normal tt, w') /\
             queue_from_line_29 w'.
Proof.
  revert w. induction l as [|a l IH]; intros w Hq; simpl.
  - by exists w.
  - destruct (detection_callback_returns a w Hq) as (w1 & Hc & Hq1).
    unfold bind. rewrite Hc. by apply IH.
Qed.

End Catches.



(** ** What the delivery of packets leaves alone, and what it adds *)

Section Delivery.

Variables (target_macs : gset string) (f : string).

(** The handler never touches the radio or the folders. *)
Lemma detection_callback_frame a w :
  radio (detection_callback target_macs f a w).2 = radio w /\
  dirs (detection_callback target_macs f a w).2 = dirs w.
Proof. handler_cases; done. Qed.

Lemma deliver_frame l w :
  radio (deliver (detection_callback target_macs f) l w).2 = radio w /\
  dirs (deliver (detection_callback target_macs f) l w).2 = dirs w.
Proof.
  revert w. induction l as [|a l IH]; intros w; simpl; [done|].
  unfold bind.
  destruct (detection_callback_frame a w) as [Hr Hd].
  destruct (detection_callback target_macs f a w) as [[[]|e|] w1];
    simpl in *; [|done|done].
  destruct (IH w1) as [Hr1 Hd1]. split; congruence.
Qed.



End Delivery.

(** ** The scan session in closed form *)

Section Session.

Variables (BASE_DIR : string) (config : Module_ns) (env : Env).

(** A refused folder: nothing else happens. *)
Lemma scan_loop_makedirs_fails w msg :
  makedirs_fault env = Some msg ->
  scan_loop BASE_DIR config env w = (Raise (OSError msg), w).
Proof.
  intros H. unfold scan_loop, ensure_output_folder, makedirs, bind.
  by rewrite H.
Qed.

(** A refused file: the folders exist and nothing else happens. *)
Lemma scan_loop_open_fails w msg :
  makedirs_fault env = None -> open_fault env = Some msg ->
  exists w', scan_loop BASE_DIR config env w = (Raise (OSError msg), w') /\
             console w' = console w /\ radio w' = radio w /\
             EVENT_QUEUE w' = EVENT_QUEUE w /\ files w' = files w.
Proof.
  intros H1 H2. unfold scan_loop, ensure_output_folder, makedirs, bind.
  rewrite H1. simpl. unfold with_open_w, open_w, bind. rewrite H2.
  by eexists.
Qed.

(** The coroutine up to the body of the [with] block. *)
Lemma scan_loop_unfold w :
  makedirs_fault env = None -> open_fault env = None ->
  scan_loop BASE_DIR config env w
  = try_finally (scan_session config env (RunPath.csv_path BASE_DIR (now env)))
      (close (RunPath.csv_path BASE_DIR (now env)))
      (world_opened BASE_DIR env w).
Proof.
  intros H1 H2. unfold scan_loop, ensure_output_folder, makedirs, bind.
  rewrite H1. simpl. unfold with_open_w, open_w, bind. by rewrite H2.
Qed.

(** Lines 51 to 91 on the freshly opened file. *)
Lemma session_prelude_eq w :
  session_prelude config (RunPath.csv_path BASE_DIR (now env))
    (world_opened BASE_DIR env w)
  = (Normal tt, world_ready BASE_DIR config env w).
Proof.
  unfold session_prelude, bind, writerow, world_opened. simpl.
  rewrite lookup_insert_eq. simpl. unfold world_ready, set_files. simpl.
  rewrite insert_insert_eq.
  case_bool_decide; simpl; unfold scanner_new, modify, set_radio; simpl;
    [done|]. by rewrite app_nil_r.
Qed.

(** The [try] block always ends by an exception. *)
Lemma session_running_eq f w :
  queue_from_line_29 w ->
  session_running config env f w
  = (Raise (session_exit env), world_exit config env f w).
Proof.
  intros Hq. unfold session_running, session_exit, world_exit, bind,
    scanner_start, modify. simpl.
  destruct (start_fault env) as [e|]; simpl; [done|].
  unfold bind, print, modify. simpl.
  destruct (deliver_returns (target_macs_of config) f (arrivals env)
              (world_started w) Hq) as (w' & Hd & _).
  unfold world_started, set_console, set_radio in *. simpl in *.
  by rewrite Hd.
Qed.

Lemma world_exit_queue f w :
  queue_from_line_29 w -> queue_from_line_29 (world_exit config env f w).
Proof.
  intros Hq. unfold world_exit. destruct (start_fault env); [done|].
  destruct (deliver_returns (target_macs_of config) f (arrivals env)
              (world_started w) Hq) as (w' & Hd & Hq').
  by rewrite Hd.
Qed.

Lemma world_exit_radio f w :
  radio (world_exit config env f w) = radio w ++ [RStart].
Proof.
  unfold world_exit. destruct (start_fault env); [done|].
  by destruct (deliver_frame (target_macs_of config) f (arrivals env)
                 (world_started w)) as [-> _].
Qed.

(** Lines 92 to 107 on a world with the queue of line 29. *)
Lemma session_try_eq f w :
  queue_from_line_29 w ->
  try_finally
    (try_except_Exception (session_running config env f)
       (fun exc => print (LScanError exc)))
    (session_teardown env) w
  = torn_down (stop_fault env)
      (caught (session_exit env) (world_exit config env f w)).
Proof.
  intros Hq. unfold try_finally, try_except_Exception.
  rewrite (session_running_eq f w Hq). unfold caught, torn_down.
  unfold session_teardown, try_except_Exception, scanner_stop, bind,
    modify, print, modify, raise, ret.
  destruct (isinstance_Exception (session_exit env)); simpl;
    destruct (stop_fault env) as [e|]; simpl; try done;
    by destruct (isinstance_Exception e).
Qed.

(** The whole coroutine once the folder and the file are granted. *)
Lemma scan_loop_eq w :
  makedirs_fault env = None -> open_fault env = None ->
  queue_from_line_29 w ->
  scan_loop BASE_DIR config env w
  = let rw := torn_down (stop_fault env)
                (caught (session_exit env)
                   (world_exit config env
                      (RunPath.csv_path BASE_DIR (now env))
                      (world_ready BASE_DIR config env w))) in
    (rw.1, closed_world (RunPath.csv_path BASE_DIR (now env)) rw.2).
Proof.
  intros H1 H2 Hq. rewrite (scan_loop_unfold w H1 H2).
  unfold try_finally at 1. unfold scan_session, bind.
  rewrite (session_prelude_eq w).
  rewrite (session_try_eq (RunPath.csv_path BASE_DIR (now env))
             (world_ready BASE_DIR config env w)) by done.
  unfold torn_down, caught, closed_world, close, modify.
  destruct (isinstance_Exception (session_exit env)); simpl;
    destruct (stop_fault env) as [e|]; simpl; try done;
    by destruct (isinstance_Exception e).
Qed.

End Session.

(** ** C7: the exit status *)

Section ExitStatus.

Variables (BASE_DIR : string) (config : Module_ns) (env : Env).

(** [main] handles every exception that [asyncio.run] lets out. *)
Lemma main_returns w :
  (scan_loop BASE_DIR config env w).1 <> Blocks ->
  (main BASE_DIR config env w).1 = Normal tt.
Proof.
  unfold main, asyncio_run.
  destruct (scan_loop BASE_DIR config env w) as [[[]|e|] w']; simpl;
    [done| |done].
  by destruct e.
Qed.

(** With the queue of line 29 the coroutine never hangs. *)
Lemma scan_loop_ends w :
  queue_from_line_29 w -> (scan_loop BASE_DIR config env w).1 <> Blocks.
Proof.
  intros Hq. destruct (makedirs_fault env) as [msg|] eqn:H1.
  { by rewrite (scan_loop_makedirs_fails _ _ _ w msg H1). }
  destruct (open_fault env) as [msg|] eqn:H2.
  { destruct (scan_loop_open_fails BASE_DIR config env w msg H1 H2)
      as (w' & -> & _). done. }
  rewrite (scan_loop_eq _ _ _ w H1 H2 Hq). simpl.
  unfold torn_down, caught.
  destruct (isinstance_Exception (session_exit env)); simpl;
    destruct (stop_fault env) as [e|]; simpl; try done;
    by destruct (isinstance_Exception e).
Qed.

End ExitStatus.

(** C7, as the code has it.  Whatever ends the run (the user's interrupt,
    a radio that fails to start or fails later, an output folder or file
    that cannot be created), [main] returns normally and the exit status
    of the process is 0. *)
Theorem main_exit_status_zero
    (BASE_DIR : string) (config : Module_ns) (env : Env) (w : World) :
  queue_from_line_29 w ->
  exit_status (main BASE_DIR config env w).1 = Some 0.
Proof.
  intros Hq. rewrite main_returns; [done|]. by apply scan_loop_ends.
Qed.

Lemma main_exit_status_zero_witness :
  queue_from_line_29 initial_world /\
  exit_status (main Demo.BASE_DIR config_py
                 (Demo.interrupted Demo.t_early [Demo.sensor; Demo.other])
                 initial_world).1 = Some 0.
Proof.
  split; [reflexivity|].
  apply (main_exit_status_zero Demo.BASE_DIR config_py
           (Demo.interrupted Demo.t_early [Demo.sensor; Demo.other])
           initial_world).
  reflexivity.
Defined.

(** C7 as it is worded fails: a radio that cannot start, and an output
    folder that cannot be created, both end the process with status 0
    after one console line. *)
Lemma exit_status_zero_on_fatal_failure :
  start_fault Demo.radio_fails
  = Some (BleakError "Bluetooth device is turned off") /\
  main Demo.BASE_DIR config_py Demo.radio_fails initial_world
  = (Normal tt,
     (main Demo.BASE_DIR config_py Demo.radio_fails initial_world).2) /\
  console (main Demo.BASE_DIR config_py Demo.radio_fails initial_world).2
  = [LScanError (BleakError "Bluetooth device is turned off")] /\
  exit_status (main Demo.BASE_DIR config_py Demo.radio_fails initial_world).1
  = Some 0 /\
  makedirs_fault Demo.folder_fails = Some "Permission denied" /\
  console (main Demo.BASE_DIR config_py Demo.folder_fails initial_world).2
  = [LUnexpected (OSError "Permission denied")] /\
  exit_status (main Demo.BASE_DIR config_py Demo.folder_fails initial_world).1
  = Some 0 /\
  ~ (exit_status
       (main Demo.BASE_DIR config_py Demo.radio_fails initial_world).1
     <> Some 0 /\
     exit_status
       (main Demo.BASE_DIR config_py Demo.folder_fails initial_world).1
     <> Some 0).
Proof.
  split_and!; try (vm_compute; reflexivity).
  intros [H _]. apply H. vm_compute. reflexivity.
Qed.

(** ** C6: the radio is stopped on every exit path *)

Section Teardown.

Variables (BASE_DIR : string) (config : Module_ns).

Lemma closed_world_frame f w :
  radio (closed_world f w) = radio w /\
  console (closed_world f w) = console w /\
  EVENT_QUEUE (closed_world f w) = EVENT_QUEUE w.
Proof.
  unfold closed_world, close, modify. simpl. by destruct (files w !! f).
Qed.

Lemma closed_world_closed f w fl :
  files w !! f = Some fl ->
  files (closed_world f w) !! f
  = Some {| durable := durable fl ++ buffered fl; buffered := [];
            closed := true |}.
Proof.
  intros H. unfold closed_world, close, modify. simpl. rewrite H. simpl.
  by rewrite lookup_insert_eq.
Qed.

Lemma torn_down_frame fault rw :
  radio (torn_down fault rw).2 = radio rw.2 ++ [RStop] /\
  console (torn_down fault rw).2 = console rw.2 /\
  EVENT_QUEUE (torn_down fault rw).2 = EVENT_QUEUE rw.2 /\
  files (torn_down fault rw).2 = files rw.2.
Proof.
  unfold torn_down. destruct fault as [e|]; [|done].
  by destruct (isinstance_Exception e).
Qed.

Lemma caught_frame x wx :
  radio (caught x wx).2 = radio wx /\
  EVENT_QUEUE (caught x wx).2 = EVENT_QUEUE wx /\
  files (caught x wx).2 = files wx.
Proof. unfold caught. by destruct (isinstance_Exception x). Qed.

(** A stop call that fails with an [Exception] leaves the same outcome
    and the same world as one that succeeds. *)
Lemma torn_down_swallows e rw :
  isinstance_Exception e = true ->
  torn_down (Some e) rw = torn_down None rw.
Proof. intros H. unfold torn_down. by rewrite H. Qed.

(** The handler keeps an open file open. *)
Lemma detection_callback_keeps_open f tm a w :
  (exists fl, files w !! f = Some fl) ->
  exists fl', files (detection_callback tm f a w).2 !! f = Some fl'.
Proof. intros [fl Hf]. handler_cases; eauto. Qed.

Lemma deliver_keeps_open f tm l w :
  (exists fl, files w !! f = Some fl) ->
  exists fl', files (deliver (detection_callback tm f) l w).2 !! f = Some fl'.
Proof.
  revert w. induction l as [|a l IH]; intros w Hf; simpl; [done|].
  unfold bind.
  pose proof (detection_callback_keeps_open f tm a w Hf) as H1.
  destruct (detection_callback tm f a w) as [[[]|e|] w1]; simpl in *;
    [by apply IH|done|done].
Qed.

Lemma world_exit_keeps_open env f w :
  (exists fl, files w !! f = Some fl) ->
  exists fl', files (world_exit config env f w) !! f = Some fl'.
Proof.
  intros Hf. unfold world_exit. destruct (start_fault env); [done|].
  by apply deliver_keeps_open.
Qed.

End Teardown.

(** The radio calls of the whole coroutine: the scanner is built, started
    and stopped, whatever happens in between. *)
Lemma scan_loop_radio_trace
    (BASE_DIR : string) (config : Module_ns) (env : Env) (w : World) :
  makedirs_fault env = None -> open_fault env = None ->
  queue_from_line_29 w ->
  radio (scan_loop BASE_DIR config env w).2 = radio w ++ [RNew; RStart; RStop].
Proof.
  intros H1 H2 Hq. rewrite (scan_loop_eq _ _ _ w H1 H2 Hq). simpl.
  destruct (closed_world_frame (RunPath.csv_path BASE_DIR (now env))
    (torn_down (stop_fault env)
       (caught (session_exit env)
          (world_exit config env (RunPath.csv_path BASE_DIR (now env))
             (world_ready BASE_DIR config env w)))).2) as [-> _].
  destruct (torn_down_frame (stop_fault env)
       (caught (session_exit env)
          (world_exit config env (RunPath.csv_path BASE_DIR (now env))
             (world_ready BASE_DIR config env w)))) as [-> _].
  destruct (caught_frame (session_exit env)
          (world_exit config env (RunPath.csv_path BASE_DIR (now env))
             (world_ready BASE_DIR config env w))) as [-> _].
  rewrite world_exit_radio. simpl. by rewrite <- !app_assoc.
Qed.

(** C6, as the code has it.  Once the output file is open, on every exit
    path of the scan session (a failed start, an interrupt, an error in
    the loop) the stop call is attempted, once and as the last radio call;
    the session ends and its file is closed; and a stop call that fails
    with an [Exception] is swallowed: the outcome, the console and the
    rest of the world are those of a run whose stop call succeeds, so the
    failure is not logged. *)
Theorem scan_loop_stop_attempted
    (BASE_DIR : string) (config : Module_ns) (env : Env) (w : World) :
  makedirs_fault env = None -> open_fault env = None ->
  queue_from_line_29 w ->
  radio (scan_loop BASE_DIR config env w).2 = radio w ++ [RNew; RStart; RStop] /\
  (scan_loop BASE_DIR config env w).1 <> Blocks /\
  (exists fl,
     files (scan_loop BASE_DIR config env w).2
       !! RunPath.csv_path BASE_DIR (now env) = Some fl /\
     closed fl = true /\ buffered fl = []) /\
  (forall e, stop_fault env = Some e -> isinstance_Exception e = true ->
     scan_loop BASE_DIR config env w
     = scan_loop BASE_DIR config (with_stop_fault env None) w).
Proof.
  intros H1 H2 Hq. split_and!.
  - by apply scan_loop_radio_trace.
  - by apply scan_loop_ends.
  - rewrite (scan_loop_eq _ _ _ w H1 H2 Hq). simpl.
    destruct (world_exit_keeps_open config env
                (RunPath.csv_path BASE_DIR (now env))
                (world_ready BASE_DIR config env w)) as [fl Hfl].
    { eexists. simpl. by rewrite lookup_insert_eq. }
    eexists. split.
    { apply closed_world_closed.
      destruct (torn_down_frame (stop_fault env)
           (caught (session_exit env)
              (world_exit config env (RunPath.csv_path BASE_DIR (now env))
                 (world_ready BASE_DIR config env w)))) as (_ & _ & _ & ->).
      destruct (caught_frame (session_exit env)
              (world_exit config env (RunPath.csv_path BASE_DIR (now env))
                 (world_ready BASE_DIR config env w))) as (_ & _ & ->).
      exact Hfl. }
    done.
  - intros e He Hi.
    rewrite (scan_loop_eq _ _ _ w H1 H2 Hq).
    rewrite (scan_loop_eq _ _ (with_stop_fault env None) w) by done.
    simpl. rewrite He. by rewrite (torn_down_swallows e _ Hi).
Qed.

Lemma scan_loop_stop_attempted_witness :
  makedirs_fault Demo.stop_fails = None /\
  open_fault Demo.stop_fails = None /\
  queue_from_line_29 initial_world /\
  radio (scan_loop Demo.BASE_DIR config_py Demo.stop_fails initial_world).2
  = radio initial_world ++ [RNew; RStart; RStop] /\
  (scan_loop Demo.BASE_DIR config_py Demo.stop_fails initial_world).1
  <> Blocks /\
  (exists fl,
     files (scan_loop Demo.BASE_DIR config_py Demo.stop_fails initial_world).2
       !! RunPath.csv_path Demo.BASE_DIR (now Demo.stop_fails) = Some fl /\
     closed fl = true /\ buffered fl = []) /\
  (forall e, stop_fault Demo.stop_fails = Some e ->
     isinstance_Exception e = true ->
     scan_loop Demo.BASE_DIR config_py Demo.stop_fails initial_world
     = scan_loop Demo.BASE_DIR config_py
         (with_stop_fault Demo.stop_fails None) initial_world).
Proof.
  split; [reflexivity|]. split; [reflexivity|]. split; [reflexivity|].
  apply (scan_loop_stop_attempted Demo.BASE_DIR config_py Demo.stop_fails
           initial_world); reflexivity.
Defined.

(** C6 as it is worded fails on the logging: in a run whose stop call
    raises, the stop is attempted, yet no console line reports the
    exception; the console is the one of a run whose stop call succeeds. *)
Lemma stop_failure_not_logged :
  stop_fault Demo.stop_fails = Some Demo.stop_error /\
  radio (scan_loop Demo.BASE_DIR config_py Demo.stop_fails initial_world).2
  = [RNew; RStart; RStop] /\
  console (scan_loop Demo.BASE_DIR config_py Demo.stop_fails initial_world).2
  = [LStarted;
     LEvent 1000 "60:c0:bf:49:2a:e9" (PyInt (-42)) (PyStr "Sensor1")] /\
  Forall (fun l => line_exc l <> Some Demo.stop_error)
    (console
       (scan_loop Demo.BASE_DIR config_py Demo.stop_fails initial_world).2) /\
  Forall (fun l => line_exc l <> Some Demo.stop_error)
    (console (main Demo.BASE_DIR config_py Demo.stop_fails initial_world).2).
Proof.
  split_and!; try (vm_compute; reflexivity);
    vm_compute; repeat constructor; discriminate.
Qed.

(** ** C9 and C10: the empty and the missing watchlist *)

Section EmptyWatchlist.

Variable f : string.

Lemma console_grows_quietly_refl w : console_grows_quietly w w.
Proof. exists []. by rewrite app_nil_r. Qed.

Lemma console_grows_quietly_trans w1 w2 w3 :
  console_grows_quietly w1 w2 -> console_grows_quietly w2 w3 ->
  console_grows_quietly w1 w3.
Proof.
  intros (c1 & H1 & F1) (c2 & H2 & F2). exists (c1 ++ c2).
  rewrite H2, H1, <- app_assoc. split; [done|].
  by rewrite List.filter_app, F1, F2.
Qed.

(** With nothing on the watchlist the handler captures nothing. *)
Lemma detection_callback_empty a w :
  exists w', detection_callback ∅ f a w = (Normal tt, w') /\
    EVENT_QUEUE w' = EVENT_QUEUE w /\ files w' = files w /\
    console_grows_quietly w w'.
Proof.
  destruct (packet_mac a) as [mac|e|] eqn:Hm.
  - rewrite (detection_callback_unwatched ∅ f a w mac Hm) by set_solver.
    exists w. split_and!; try done. apply console_grows_quietly_refl.
  - rewrite (detection_callback_bad_address ∅ f a w e Hm).
    eexists. split; [done|]. split_and!; try done.
    by exists [LPacketError e].
  - by destruct (packet_mac_returns a).
Qed.

Lemma deliver_empty l w :
  exists w', deliver (detection_callback ∅ f) l w = (Normal tt, w') /\
    EVENT_QUEUE w' = EVENT_QUEUE w /\ files w' = files w /\
    console_grows_quietly w w'.
Proof.
  revert w. induction l as [|a l IH]; intros w; simpl.
  - exists w. split_and!; try done. apply console_grows_quietly_refl.
  - destruct (detection_callback_empty a w) as (w1 & Hc & Hq & Hf & Hg).
    destruct (IH w1) as (w' & Hd & Hq' & Hf' & Hg').
    exists w'. unfold bind. rewrite Hc. split; [done|].
    split_and!; try congruence.
    by apply (console_grows_quietly_trans w w1 w').
Qed.

(** The session up to the exception, with nothing on the watchlist. *)
Lemma world_exit_empty config env w :
  target_macs_of config = ∅ ->
  EVENT_QUEUE (world_exit config env f w) = EVENT_QUEUE w /\
  files (world_exit config env f w) = files w /\
  console_grows_quietly w (world_exit config env f w).
Proof.
  intros Ht. unfold world_exit. destruct (start_fault env).
  - split_and!; try done. exists []. simpl. by rewrite app_nil_r.
  - rewrite Ht.
    destruct (deliver_empty (arrivals env) (world_started w))
      as (w' & -> & Hq & Hf & Hg). simpl.
    split_and!; try done.
    apply (console_grows_quietly_trans w (world_started w) w'); [|done].
    by exists [LStarted].
Qed.

Lemma caught_quiet x wx : console_grows_quietly wx (caught x wx).2.
Proof.
  unfold caught. destruct (isinstance_Exception x); simpl.
  - by exists [LScanError x].
  - apply console_grows_quietly_refl.
Qed.

End EmptyWatchlist.

Lemma target_macs_of_nil config :
  getattr_default config "TARGET_MACS" [] = [] -> target_macs_of config = ∅.
Proof. unfold target_macs_of. by intros ->. Qed.

(** The console and the queue of the whole coroutine with nothing on the
    watchlist. *)
Lemma scan_loop_empty_watchlist
    (BASE_DIR : string) (config : Module_ns) (env : Env) (w : World) :
  getattr_default config "TARGET_MACS" [] = [] ->
  makedirs_fault env = None -> open_fault env = None ->
  queue_from_line_29 w ->
  (exists cl,
     console (scan_loop BASE_DIR config env w).2
     = console w ++ LNoTargets :: cl /\
     List.filter is_event_line cl = []) /\
  EVENT_QUEUE (scan_loop BASE_DIR config env w).2 = EVENT_QUEUE w.
Proof.
  intros Hl H1 H2 Hq. pose proof (target_macs_of_nil config Hl) as Ht.
  rewrite (scan_loop_eq _ _ _ w H1 H2 Hq). simpl.
  set (p := RunPath.csv_path BASE_DIR (now env)).
  set (w0 := world_ready BASE_DIR config env w).
  set (wx := world_exit config env p w0).
  set (rc := caught (session_exit env) wx).
  set (rt := torn_down (stop_fault env) rc).
  destruct (world_exit_empty p config env w0 Ht) as (Hxq & _ & Hxc).
  destruct (caught_frame (session_exit env) wx) as (_ & Hcq & _).
  pose proof (caught_quiet (session_exit env) wx) as Hcc.
  destruct (torn_down_frame (stop_fault env) rc) as (_ & Htc & Htq & _).
  destruct (closed_world_frame p rt.2) as (_ & Hzc & Hzq).
  fold wx in Hxq, Hxc. fold rc in Hcq, Hcc. fold rt in Htc, Htq.
  split.
  - rewrite Hzc, Htc.
    destruct (console_grows_quietly_trans w0 wx rc.2 Hxc Hcc) as (cl & -> & F).
    exists cl. split; [|done]. unfold w0, world_ready. simpl.
    rewrite Ht. rewrite bool_decide_eq_true_2 by done.
    by rewrite <- app_assoc.
  - by rewrite Hzq, Htq, Hcq, Hxq.
Qed.

(** C9.  With an empty watchlist, once the output file is open: the
    notice is printed, the radio start is called, and whatever packets
    arrive, the console gains no event line, the queue is left as it was
    and the file holds the header row and nothing else. *)
Theorem empty_watchlist_captures_nothing
    (BASE_DIR : string) (config : Module_ns) (env : Env) (w : World) :
  getattr_default config "TARGET_MACS" [] = [] ->
  makedirs_fault env = None -> open_fault env = None ->
  queue_from_line_29 w ->
  (exists cl,
     console (scan_loop BASE_DIR config env w).2
     = console w ++ LNoTargets :: cl /\
     List.filter is_event_line cl = []) /\
  RStart ∈ radio (scan_loop BASE_DIR config env w).2 /\
  EVENT_QUEUE (scan_loop BASE_DIR config env w).2 = EVENT_QUEUE w /\
  files (scan_loop BASE_DIR config env w).2
    !! RunPath.csv_path BASE_DIR (now env)
  = Some {| durable := [header_row]; buffered := []; closed := true |}.
Proof.
  intros Hl H1 H2 Hq. pose proof (target_macs_of_nil config Hl) as Ht.
  destruct (scan_loop_empty_watchlist BASE_DIR config env w Hl H1 H2 Hq)
    as (Hconsole & Hqueue).
  split; [exact Hconsole|]. split; [|split; [exact Hqueue|]].
  - rewrite (scan_loop_radio_trace BASE_DIR config env w H1 H2 Hq).
    apply elem_of_app. right. apply elem_of_cons. right.
    apply elem_of_cons. by left.
  - rewrite (scan_loop_eq _ _ _ w H1 H2 Hq). simpl.
    set (p := RunPath.csv_path BASE_DIR (now env)).
    set (w0 := world_ready BASE_DIR config env w).
    set (rc := caught (session_exit env) (world_exit config env p w0)).
    destruct (world_exit_empty p config env w0 Ht) as (_ & Hxf & _).
    destruct (caught_frame (session_exit env) (world_exit config env p w0))
      as (_ & _ & Hcf).
    destruct (torn_down_frame (stop_fault env) rc) as (_ & _ & _ & Htf).
    fold rc in Hcf.
    rewrite (closed_world_closed p (torn_down (stop_fault env) rc).2
               {| durable := []; buffered := [header_row]; closed := false |});
      [done|].
    rewrite Htf, Hcf, Hxf. unfold w0, world_ready. simpl.
    by rewrite lookup_insert_eq.
Qed.

Lemma empty_watchlist_captures_nothing_witness :
  getattr_default Demo.config_empty "TARGET_MACS" [] = [] /\
  makedirs_fault
    (Demo.interrupted Demo.t_early [Demo.sensor; Demo.malformed]) = None /\
  open_fault
    (Demo.interrupted Demo.t_early [Demo.sensor; Demo.malformed]) = None /\
  queue_from_line_29 initial_world /\
  (exists cl,
     console (scan_loop Demo.BASE_DIR Demo.config_empty
                (Demo.interrupted Demo.t_early [Demo.sensor; Demo.malformed])
                initial_world).2
     = console initial_world ++ LNoTargets :: cl /\
     List.filter is_event_line cl = []) /\
  RStart ∈ radio (scan_loop Demo.BASE_DIR Demo.config_empty
                    (Demo.interrupted Demo.t_early
                       [Demo.sensor; Demo.malformed]) initial_world).2 /\
  EVENT_QUEUE (scan_loop Demo.BASE_DIR Demo.config_empty
                 (Demo.interrupted Demo.t_early [Demo.sensor; Demo.malformed])
                 initial_world).2 = EVENT_QUEUE initial_world /\
  files (scan_loop Demo.BASE_DIR Demo.config_empty
           (Demo.interrupted Demo.t_early [Demo.sensor; Demo.malformed])
           initial_world).2
    !! RunPath.csv_path Demo.BASE_DIR
         (now (Demo.interrupted Demo.t_early [Demo.sensor; Demo.malformed]))
  = Some {| durable := [header_row]; buffered := []; closed := true |}.
Proof.
  split; [reflexivity|]. split; [reflexivity|]. split; [reflexivity|].
  split; [reflexivity|].
  apply (empty_watchlist_captures_nothing Demo.BASE_DIR Demo.config_empty
           (Demo.interrupted Demo.t_early [Demo.sensor; Demo.malformed])
           initial_world); reflexivity.
Defined.

Section MissingWatchlist.

Variables (BASE_DIR : string) (config : Module_ns) (env : Env).

(** The coroutine reads the configuration through the watchlist only. *)
Lemma scan_loop_same_watchlist config' w :
  target_macs_of config = target_macs_of config' ->
  scan_loop BASE_DIR config env w = scan_loop BASE_DIR config' env w.
Proof.
  intros H. unfold scan_loop, scan_session, session_prelude,
    session_running. by rewrite H.
Qed.

(** What [main] adds after the coroutine: at most one line, which is not
    the line of an event. *)
Lemma main_frame w :
  console_grows_quietly (scan_loop BASE_DIR config env w).2
    (main BASE_DIR config env w).2 /\
  EVENT_QUEUE (main BASE_DIR config env w).2
  = EVENT_QUEUE (scan_loop BASE_DIR config env w).2 /\
  files (main BASE_DIR config env w).2
  = files (scan_loop BASE_DIR config env w).2.
Proof.
  unfold main, asyncio_run.
  destruct (scan_loop BASE_DIR config env w) as [[[]|e|] w']; simpl.
  - split_and!; try done. exists []. by rewrite app_nil_r.
  - destruct e; simpl; split_and!; try done;
      first [ by eexists [_] | (exists []; by rewrite app_nil_r) ].
  - split_and!; try done. exists []. by rewrite app_nil_r.
Qed.

End MissingWatchlist.

(** C10.  A configuration module without the attribute [TARGET_MACS]
    gives the empty watchlist; the whole program then behaves as with
    [TARGET_MACS = []]; and once the output file is open the notice is
    printed, no event line is, and the queue is left as it was. *)
Theorem missing_watchlist_is_empty
    (BASE_DIR : string) (config : Module_ns) (env : Env) (w : World) :
  config !! "TARGET_MACS" = None ->
  target_macs_of config = ∅ /\
  main BASE_DIR config env w
  = main BASE_DIR (<["TARGET_MACS" := []]> config) env w /\
  (makedirs_fault env = None -> open_fault env = None ->
   queue_from_line_29 w ->
   (exists cl,
      console (main BASE_DIR config env w).2 = console w ++ LNoTargets :: cl /\
      List.filter is_event_line cl = []) /\
   EVENT_QUEUE (main BASE_DIR config env w).2 = EVENT_QUEUE w).
Proof.
  intros Hc.
  assert (Hl : getattr_default config "TARGET_MACS" [] = []).
  { unfold getattr_default. by rewrite Hc. }
  pose proof (target_macs_of_nil config Hl) as Ht.
  split; [exact Ht|]. split.
  - unfold main, asyncio_run.
    rewrite (scan_loop_same_watchlist BASE_DIR config env
               (<["TARGET_MACS" := []]> config) w); [done|].
    rewrite Ht. unfold target_macs_of, getattr_default.
    by rewrite lookup_insert_eq.
  - intros H1 H2 Hq.
    destruct (scan_loop_empty_watchlist BASE_DIR config env w
                Hl H1 H2 Hq) as ((cl & Hcl & Fcl) & Hqe).
    destruct (main_frame BASE_DIR config env w) as ((cl' & Hm & Fm) & Hmq & _).
    split.
    + exists (cl ++ cl'). rewrite Hm, Hcl, <- app_assoc. split; [done|].
      by rewrite List.filter_app, Fcl, Fm.
    + by rewrite Hmq, Hqe.
Qed.

Lemma missing_watchlist_is_empty_witness :
  Demo.config_without !! "TARGET_MACS" = None /\
  target_macs_of Demo.config_without = ∅ /\
  main Demo.BASE_DIR Demo.config_without
    (Demo.interrupted Demo.t_early [Demo.sensor]) initial_world
  = main Demo.BASE_DIR (<["TARGET_MACS" := []]> Demo.config_without)
      (Demo.interrupted Demo.t_early [Demo.sensor]) initial_world /\
  (exists cl,
     console (main Demo.BASE_DIR Demo.config_without
                (Demo.interrupted Demo.t_early [Demo.sensor])
                initial_world).2
     = console initial_world ++ LNoTargets :: cl /\
     List.filter is_event_line cl = []) /\
  EVENT_QUEUE (main Demo.BASE_DIR Demo.config_without
                 (Demo.interrupted Demo.t_early [Demo.sensor])
                 initial_world).2 = EVENT_QUEUE initial_world.
Proof.
  split; [reflexivity|].
  destruct (missing_watchlist_is_empty Demo.BASE_DIR Demo.config_without
              (Demo.interrupted Demo.t_early [Demo.sensor]) initial_world
              eq_refl) as (H1 & H2 & H3).
  split; [exact H1|]. split; [exact H2|]. apply H3; reflexivity.
Defined.

(** ** C3: the rows of the output file *)

Section OutputFile.

Variables (config : Module_ns) (env : Env) (f : string).


End OutputFile.





(** ** C2: the queue has no bound *)

Section Unbounded.

Lemma put_unbounded ev q :
  Queue.maxsize q = Queue.maxsize Queue.new ->
  Queue.put ev q
  = Some {| Queue.maxsize := 0; Queue.items := Queue.items q ++ [ev] |}.
Proof.
  intros H. unfold Queue.put, Queue.full. by rewrite H.
Qed.

Lemma put_all_unbounded l q :
  Queue.maxsize q = Queue.maxsize Queue.new ->
  put_all l q
  = Some {| Queue.maxsize := 0; Queue.items := Queue.items q ++ l |}.
Proof.
  revert q. induction l as [|ev l IH]; intros q H; simpl.
  - rewrite app_nil_r. destruct q. simpl in *. by subst.
  - rewrite (put_unbounded ev q H). rewrite IH by done. simpl.
    by rewrite <- app_assoc.
Qed.

End Unbounded.

(** C2, as the code has it.  The queue built at line 29 has no capacity
    bound: it is never full, an enqueue never blocks and never drops, and
    the event is appended behind the ones already there; nothing is
    counted. *)
Theorem event_queue_put_appends (item : Event) (w : World) :
  queue_from_line_29 w ->
  Queue.full (EVENT_QUEUE w) = false /\
  EVENT_QUEUE_put item w
  = (Normal tt,
     set_queue {| Queue.maxsize := 0;
                  Queue.items := Queue.items (EVENT_QUEUE w) ++ [item] |} w).
Proof.
  intros Hq. split; [by apply queue_from_line_29_not_full|].
  unfold EVENT_QUEUE_put. by rewrite (put_unbounded item _ Hq).
Qed.

Lemma event_queue_put_appends_witness :
  queue_from_line_29 initial_world /\
  Queue.full (EVENT_QUEUE initial_world) = false /\
  EVENT_QUEUE_put Demo.an_event initial_world
  = (Normal tt,
     set_queue {| Queue.maxsize := 0;
                  Queue.items := Queue.items (EVENT_QUEUE initial_world)
                                 ++ [Demo.an_event] |} initial_world).
Proof.
  split; [reflexivity|].
  apply (event_queue_put_appends Demo.an_event initial_world). reflexivity.
Defined.

(** C2 as it is worded fails: no number bounds the length of the queue
    of line 29.  A thousand enqueues on the fresh queue all succeed, and
    so do [cap + 1] of them for any proposed capacity [cap]. *)
Lemma event_queue_has_no_capacity :
  Queue.full Queue.new = false /\
  (exists q, put_all (repeat Demo.an_event 1000) Queue.new = Some q /\
             length (Queue.items q) = 1000%nat /\ Queue.full q = false) /\
  ~ (exists cap : nat, forall l q,
        put_all l Queue.new = Some q -> (length (Queue.items q) <= cap)%nat).
Proof.
  split; [reflexivity|]. split.
  - eexists. rewrite put_all_unbounded by reflexivity.
    split; [reflexivity|]. split; [vm_compute; reflexivity|reflexivity].
  - intros [cap H].
    specialize (H (repeat Demo.an_event (S cap)) _
                  (put_all_unbounded _ Queue.new eq_refl)).
    simpl in H. rewrite repeat_length in H. lia.
Qed.

(** ** C4: normalization of identifiers *)

Lemma lower_length s : String.length (Str.lower s) = String.length s.
Proof. induction s as [|c s IH]; simpl; [done|]. by rewrite IH. Qed.

Lemma packet_mac_str a r :
  address (device a) = PyStr r -> packet_mac a = Normal (Str.lower r).
Proof. intros H. unfold packet_mac. rewrite H. apply py_or_str_lower. Qed.

Lemma target_macs_of_elem config m :
  m ∈ getattr_default config "TARGET_MACS" [] ->
  Str.lower m ∈ target_macs_of config.
Proof.
  intros H. unfold target_macs_of. apply elem_of_list_to_set.
  apply list_elem_of_In, in_map. by apply list_elem_of_In.
Qed.

(** C4, as the code has it.  Normalization lower-cases the raw identifier
    and removes nothing from it; two raw identifiers that differ only in
    letter case have the same normalized identifier; and the membership
    test ignores case: a device whose address differs only in case from
    an entry of the configured list is on the watchlist. *)
Theorem normalization_ignores_case
    (config : Module_ns) (a1 a2 : Arrival) (r1 r2 : string) :
  address (device a1) = PyStr r1 -> address (device a2) = PyStr r2 ->
  Str.differ_only_in_case r1 r2 ->
  packet_mac a1 = Normal (Str.lower r1) /\
  String.length (Str.lower r1) = String.length r1 /\
  packet_mac a2 = packet_mac a1 /\
  (r2 ∈ getattr_default config "TARGET_MACS" [] ->
   Str.lower r1 ∈ target_macs_of config).
Proof.
  intros H1 H2 Hd.
  pose proof (StrFacts.lower_differ_only_in_case r1 r2 Hd) as Hl.
  split_and!.
  - by apply packet_mac_str.
  - apply lower_length.
  - rewrite (packet_mac_str a1 r1 H1), (packet_mac_str a2 r2 H2).
    by rewrite Hl.
  - intros Hin. rewrite Hl. by apply target_macs_of_elem.
Qed.

Lemma sensor_address_differs_in_case :
  Str.differ_only_in_case "60:c0:bf:49:2a:e9" "60:C0:BF:49:2A:E9".
Proof.
  repeat first
    [ apply Str.doc_nil
    | apply Str.doc_same
    | apply Str.doc_low_up; [split; [reflexivity|reflexivity]|] ].
Qed.

Lemma normalization_ignores_case_witness :
  address (device Demo.sensor_again) = PyStr "60:c0:bf:49:2a:e9" /\
  address (device Demo.sensor) = PyStr "60:C0:BF:49:2A:E9" /\
  Str.differ_only_in_case "60:c0:bf:49:2a:e9" "60:C0:BF:49:2A:E9" /\
  packet_mac Demo.sensor_again = Normal (Str.lower "60:c0:bf:49:2a:e9") /\
  String.length (Str.lower "60:c0:bf:49:2a:e9")
  = String.length "60:c0:bf:49:2a:e9" /\
  packet_mac Demo.sensor = packet_mac Demo.sensor_again /\
  ("60:C0:BF:49:2A:E9" ∈ getattr_default config_py "TARGET_MACS" [] ->
   Str.lower "60:c0:bf:49:2a:e9" ∈ target_macs_of config_py).
Proof.
  split; [reflexivity|]. split; [reflexivity|].
  split; [exact sensor_address_differs_in_case|].
  apply (normalization_ignores_case config_py Demo.sensor_again Demo.sensor
           "60:c0:bf:49:2a:e9" "60:C0:BF:49:2A:E9");
    [reflexivity|reflexivity|exact sensor_address_differs_in_case].
Defined.

(** C4 as it is worded fails on the trimming: an address that differs
    from the watched one only by a blank at its end keeps the blank when
    normalized, and the packet is not matched: the handler leaves the
    world as it was. *)
Lemma normalization_keeps_blanks :
  Str.strip "60:c0:bf:49:2a:e9 " = Str.strip "60:c0:bf:49:2a:e9" /\
  packet_mac Demo.sensor_padded = Normal "60:c0:bf:49:2a:e9 " /\
  packet_mac Demo.sensor_again = Normal "60:c0:bf:49:2a:e9" /\
  packet_mac Demo.sensor_padded <> packet_mac Demo.sensor_again /\
  event_of (target_macs_of config_py) Demo.sensor_again <> [] /\
  event_of (target_macs_of config_py) Demo.sensor_padded = [] /\
  detection_callback (target_macs_of config_py) "out.csv" Demo.sensor_padded
    initial_world = (Normal tt, initial_world).
Proof.
  split_and!; try (vm_compute; reflexivity); vm_compute; discriminate.
Qed.

(** ** C8: the name of the run folder *)

Module RunPathFacts.
Import RunPath.

#[local] Arguments String.append !_ _ / : simpl nomatch.

Lemma digit_inj n m :
  (n < 10)%N -> (m < 10)%N -> digit n = digit m -> n = m.
Proof.
  intros Hn Hm H. apply (f_equal N_of_ascii) in H. unfold digit in H.
  rewrite !N_ascii_embedding in H by lia. lia.
Qed.

Lemma digit_not_sep n : (n < 10)%N -> Ascii.eqb (digit n) "/" = false.
Proof.
  intros Hn. apply Ascii.eqb_neq. intros H.
  apply (f_equal N_of_ascii) in H. unfold digit in H.
  rewrite N_ascii_embedding in H by lia. simpl in H. lia.
Qed.

Lemma two_digits a : (a = 10 * (a / 10) + a mod 10)%N.
Proof. apply N.div_mod. lia. Qed.

Lemma four_digits a :
  (a = 1000 * (a / 1000) + 100 * ((a / 100) mod 10)
       + 10 * ((a / 10) mod 10) + a mod 10)%N.
Proof.
  pose proof (two_digits a) as H1.
  pose proof (two_digits (a / 10)) as H2.
  pose proof (two_digits (a / 100)) as H3.
  replace (a / 10 / 10)%N with (a / 100)%N in H2
    by (by rewrite N.Div0.div_div).
  replace (a / 100 / 10)%N with (a / 1000)%N in H3
    by (by rewrite N.Div0.div_div).
  lia.
Qed.

Lemma div_lt_10 a k : (0 < k)%N -> (a < 10 * k)%N -> (a / k < 10)%N.
Proof. intros Hk H. apply N.Div0.div_lt_upper_bound. lia. Qed.

Lemma mod_lt_10 a : (a mod 10 < 10)%N.
Proof. apply N.mod_lt. lia. Qed.

Lemma pad2_inj a b :
  (a < 100)%N -> (b < 100)%N -> pad2 a = pad2 b -> a = b.
Proof.
  intros Ha Hb H. unfold pad2 in H. injection H as H1 H2.
  apply digit_inj in H1; [|by apply div_lt_10..].
  apply digit_inj in H2; [|apply mod_lt_10..].
  rewrite (two_digits a), (two_digits b). by rewrite H1, H2.
Qed.

Lemma pad4_inj a b :
  (a < 10000)%N -> (b < 10000)%N -> pad4 a = pad4 b -> a = b.
Proof.
  intros Ha Hb H. unfold pad4 in H. injection H as H1 H2 H3 H4.
  apply digit_inj in H1; [|by apply div_lt_10..].
  apply digit_inj in H2; [|apply mod_lt_10..].
  apply digit_inj in H3; [|apply mod_lt_10..].
  apply digit_inj in H4; [|apply mod_lt_10..].
  rewrite (four_digits a), (four_digits b). by rewrite H1, H2, H3, H4.
Qed.

Lemma append_assoc (s1 s2 s3 : string) :
  (s1 +:+ s2) +:+ s3 = s1 +:+ s2 +:+ s3.
Proof.
  induction s1 as [|c s1 IH]; cbn [String.append]; [done|].
  by rewrite IH.
Qed.

(** Two strings with prefixes of the same length are equal only if the
    prefixes are. *)
Lemma append_prefix_inj (s1 s2 t1 t2 : string) :
  String.length s1 = String.length s2 ->
  s1 +:+ t1 = s2 +:+ t2 -> s1 = s2.
Proof.
  revert s2. induction s1 as [|c s1 IH]; intros [|d s2] Hl H;
    simpl in *; try discriminate; [done|].
  injection H as -> H. injection Hl as Hl. f_equal. by apply IH.
Qed.

Lemma strftime_length d : String.length (strftime d) = 15%nat.
Proof. reflexivity. Qed.

Lemma strftime_inj d1 d2 :
  valid d1 -> valid d2 -> strftime d1 = strftime d2 -> same_second d1 d2.
Proof.
  intros (_ & Y1 & M1 & D1 & h1 & m1 & s1) (_ & Y2 & M2 & D2 & h2 & m2 & s2) H.
  unfold strftime in H.
  apply (f_equal (String.substring 0 4)) in H as HY.
  apply (f_equal (String.substring 4 2)) in H as HM.
  apply (f_equal (String.substring 6 2)) in H as HD.
  apply (f_equal (String.substring 9 2)) in H as Hh.
  apply (f_equal (String.substring 11 2)) in H as Hm.
  apply (f_equal (String.substring 13 2)) in H as Hs.
  cbv [String.substring String.append pad4 pad2] in HY, HM, HD, Hh, Hm, Hs.
  unfold same_second.
  split_and!; first [ by apply pad4_inj | by apply pad2_inj ].
Qed.

Lemma strftime_same d1 d2 : same_second d1 d2 -> strftime d1 = strftime d2.
Proof.
  intros (HY & HM & HD & Hh & Hm & Hs). unfold strftime.
  by rewrite HY, HM, HD, Hh, Hm, Hs.
Qed.

Lemma strftime_not_abs d : valid d -> starts_with_sep (strftime d) = false.
Proof.
  intros (_ & Y & _). cbv [strftime pad4 String.append starts_with_sep].
  apply digit_not_sep. by apply div_lt_10.
Qed.

(** Joining a relative component appends it after a separator that
    depends on the left part only. *)
Lemma join2_relative path b :
  starts_with_sep b = false ->
  join2 path b
  = path +:+ (if String.eqb path "" || ends_with_sep path then "" else "/")
         +:+ b.
Proof.
  intros H. unfold join2. rewrite H.
  by destruct (String.eqb path "" || ends_with_sep path).
Qed.

(** The CSV path is a prefix given by [BASE_DIR], the time stamp, and a
    rest. *)
Lemma csv_path_shape BASE_DIR d :
  valid d ->
  exists pre rest,
    csv_path BASE_DIR d = pre BASE_DIR +:+ strftime d +:+ rest /\
    pre = (fun B =>
             join2 (join2 B "data") "runs" +:+
             (if String.eqb (join2 (join2 B "data") "runs") ""
                 || ends_with_sep (join2 (join2 B "data") "runs")
              then "" else "/")).
Proof.
  intros Hv. eexists _, _. split; [|reflexivity].
  unfold csv_path, run_folder, join. cbn [fold_left].
  rewrite (join2_relative _ (strftime d)) by by apply strftime_not_abs.
  rewrite (join2_relative _ ("ble_events_" +:+ strftime d +:+ ".csv"))
    by reflexivity.
  rewrite !append_assoc. reflexivity.
Qed.

Lemma csv_path_inj BASE_DIR d1 d2 :
  valid d1 -> valid d2 ->
  csv_path BASE_DIR d1 = csv_path BASE_DIR d2 -> same_second d1 d2.
Proof.
  intros V1 V2 H.
  destruct (csv_path_shape BASE_DIR d1 V1) as (pre & r1 & E1 & ->).
  destruct (csv_path_shape BASE_DIR d2 V2) as (pre & r2 & E2 & ->).
  rewrite E1, E2 in H. rewrite !append_assoc in H.
  apply String.app_inj in H. apply String.app_inj in H.
  apply append_prefix_inj in H; [|by rewrite !strftime_length].
  by apply strftime_inj.
Qed.

Lemma csv_path_same BASE_DIR d1 d2 :
  same_second d1 d2 -> csv_path BASE_DIR d1 = csv_path BASE_DIR d2.
Proof.
  intros H. unfold csv_path, run_folder. by rewrite (strftime_same d1 d2 H).
Qed.

End RunPathFacts.

(** C8, as the code has it.  The output path is named after the start
    time cut to the second: for two start times with fields in range,
    [ensure_output_folder] returns the same path exactly when the two
    times fall in the same calendar second.  Runs started in different
    seconds get different files; runs started within one second share
    one. *)
Theorem run_path_unique_per_second
    (BASE_DIR : string) (d1 d2 : RunPath.datetime) (w1 w2 : World) :
  RunPath.valid d1 -> RunPath.valid d2 ->
  exists p1 p2 w1' w2',
    ensure_output_folder BASE_DIR d1 None w1 = (Normal p1, w1') /\
    ensure_output_folder BASE_DIR d2 None w2 = (Normal p2, w2') /\
    (p1 = p2 <-> RunPath.same_second d1 d2).
Proof.
  intros V1 V2.
  exists (RunPath.csv_path BASE_DIR d1), (RunPath.csv_path BASE_DIR d2).
  eexists _, _. split; [reflexivity|]. split; [reflexivity|]. split.
  - by apply RunPathFacts.csv_path_inj.
  - apply RunPathFacts.csv_path_same.
Qed.

Lemma run_path_unique_per_second_witness :
  RunPath.valid Demo.t_early /\ RunPath.valid Demo.t_next /\
  exists p1 p2 w1' w2',
    ensure_output_folder Demo.BASE_DIR Demo.t_early None initial_world
    = (Normal p1, w1') /\
    ensure_output_folder Demo.BASE_DIR Demo.t_next None initial_world
    = (Normal p2, w2') /\
    (p1 = p2 <-> RunPath.same_second Demo.t_early Demo.t_next).
Proof.
  assert (V1 : RunPath.valid Demo.t_early)
    by (unfold RunPath.valid, Demo.t_early; simpl; lia).
  assert (V2 : RunPath.valid Demo.t_next)
    by (unfold RunPath.valid, Demo.t_next; simpl; lia).
  split; [exact V1|]. split; [exact V2|].
  apply (run_path_unique_per_second Demo.BASE_DIR Demo.t_early Demo.t_next
           initial_world initial_world V1 V2).
Defined.

(** C8 as it is worded fails: two runs started at distinct times within
    one second get the same path, and the second run, opening the file
    for writing, leaves none of the first run's rows in it. *)
Lemma same_second_runs_collide :
  Demo.t_early <> Demo.t_late /\
  (ensure_output_folder Demo.BASE_DIR Demo.t_early None initial_world).1
  = Normal "/home/pi/ble/data/runs/20261104_090507/ble_events_20261104_090507.csv" /\
  (ensure_output_folder Demo.BASE_DIR Demo.t_late None initial_world).1
  = Normal "/home/pi/ble/data/runs/20261104_090507/ble_events_20261104_090507.csv" /\
  rows_at "/home/pi/ble/data/runs/20261104_090507/ble_events_20261104_090507.csv"
    (main Demo.BASE_DIR config_py
       (Demo.interrupted Demo.t_early [Demo.sensor]) initial_world).2
  = [header_row;
     [PyInt 1000; PyStr "60:c0:bf:49:2a:e9"; PyInt (-42); PyStr "Sensor1"]] /\
  rows_at "/home/pi/ble/data/runs/20261104_090507/ble_events_20261104_090507.csv"
    (main Demo.BASE_DIR config_py
       (Demo.interrupted Demo.t_late [Demo.other])
       (Demo.next_process
          (main Demo.BASE_DIR config_py
             (Demo.interrupted Demo.t_early [Demo.sensor])
             initial_world).2)).2
  = [header_row].
Proof.
  split_and!; try (vm_compute; reflexivity). discriminate.
Qed.

(** ** The end-to-end scenario *)

(** Watchlist [aa:bb:cc:dd:ee:ff]; the radio sees [AA:BB:CC:DD:EE:FF]
    (signal -42, name Sensor1) and [11:22:33:44:55:66]; the user then
    interrupts.  One data row, one event line, one queue entry, and exit
    status 0. *)
Example end_to_end_scenario :
  let r := main Demo.BASE_DIR Demo.config_one
             (Demo.interrupted Demo.t_early [Demo.sensor1; Demo.stranger])
             initial_world in
  exit_status r.1 = Some 0 /\
  console r.2
  = [LStarted;
     LEvent 1000 "aa:bb:cc:dd:ee:ff" (PyInt (-42)) (PyStr "Sensor1");
     LStoppedByUser] /\
  Queue.items (EVENT_QUEUE r.2)
  = [{| ev_timestamp_ns := 1000; ev_mac := "aa:bb:cc:dd:ee:ff";
        ev_rssi := PyInt (-42); ev_name := PyStr "Sensor1" |}] /\
  files r.2 !! RunPath.csv_path Demo.BASE_DIR Demo.t_early
  = Some {| durable :=
              [header_row;
               [PyInt 1000; PyStr "aa:bb:cc:dd:ee:ff"; PyInt (-42);
                PyStr "Sensor1"]];
            buffered := []; closed := true |} /\
  radio r.2 = [RNew; RStart; RStop].
Proof. vm_compute. repeat split; reflexivity. Qed.

(** A refused write: the event is printed and queued, the error is
    reported, no row is written, and the next packets are handled. *)
Example refused_write_scenario :
  let r := main Demo.BASE_DIR config_py
             (Demo.interrupted Demo.t_early
                [Demo.sensor_disk_full; Demo.malformed; Demo.sensor])
             initial_world in
  console r.2
  = [LStarted;
     LEvent 6000 "60:c0:bf:49:2a:e9" (PyInt (-42)) (PyStr "Unknown");
     LPacketError (OSError "No space left on device");
     LPacketError (AttributeError "'int' object has no attribute 'lower'");
     LEvent 1000 "60:c0:bf:49:2a:e9" (PyInt (-42)) (PyStr "Sensor1");
     LStoppedByUser] /\
  rows_at (RunPath.csv_path Demo.BASE_DIR Demo.t_early) r.2
  = [header_row;
     [PyInt 1000; PyStr "60:c0:bf:49:2a:e9"; PyInt (-42); PyStr "Sensor1"]].
Proof. vm_compute. split; reflexivity. Qed.

(** * Further properties of the code *)

(** ** Delivery under any faults *)

Section AnyFault.

Variables (target_macs : gset string) (f : string).

Lemma event_lines_app c1 c2 :
  event_lines (c1 ++ c2) = event_lines c1 ++ event_lines c2.
Proof. apply List.filter_app. Qed.

(** One handler call, whatever the operating system refuses: the event of
    a watched packet is printed and queued; its row is in the file unless
    the write is refused. *)
Lemma detection_callback_any_fault a w rows :
  queue_from_line_29 w -> open_with f rows w ->
  exists w',
    detection_callback target_macs f a w = (Normal tt, w') /\
    queue_from_line_29 w' /\
    Queue.items (EVENT_QUEUE w')
    = Queue.items (EVENT_QUEUE w) ++ event_of target_macs a /\
    open_with f (rows ++ map event_row (written_of target_macs a)) w' /\
    event_lines (console w')
    = event_lines (console w) ++ map line_of_event (event_of target_macs a).
Proof.
  intros Hq (fl & Hf & Hc & Hr). unfold written_of, event_of.
  destruct (packet_mac a) as [mac|e|] eqn:Hm.
  - case_bool_decide as Hin.
    + unfold detection_callback, try_except_Exception, detection_body, bind,
        lift. rewrite Hm. rewrite bool_decide_eq_true_2 by done.
      unfold print, modify, EVENT_QUEUE_put. simpl.
      rewrite (put_unbounded _ _ Hq). simpl.
      unfold writerow. simpl. rewrite Hf, Hc.
      destruct (write_fault a) as [msg|]; simpl.
      * eexists; split; [reflexivity|]. simpl. split_and!; try done.
        -- rewrite app_nil_r. by exists fl.
        -- rewrite <- app_assoc, event_lines_app. done.
      * unfold flush. simpl. rewrite lookup_insert_eq. simpl.
        destruct (flush_fault a) as [msg|]; simpl.
        -- eexists; split; [reflexivity|]. simpl. split_and!; try done.
           ++ eexists. simpl. rewrite lookup_insert_eq. split; [done|].
              split; [done|]. unfold file_rows in *. simpl.
              by rewrite app_assoc, Hr.
           ++ rewrite <- app_assoc, event_lines_app. done.
        -- eexists; split; [reflexivity|]. simpl. split_and!; try done.
           ++ eexists. unfold set_files. simpl.
              rewrite ?insert_insert_eq, lookup_insert_eq. split; [done|].
              split; [done|]. unfold file_rows in *. simpl.
              by rewrite app_nil_r, app_assoc, Hr.
           ++ rewrite event_lines_app. done.
    + rewrite (detection_callback_unwatched target_macs f a w mac) by done.
      exists w. destruct (write_fault a); simpl; rewrite !app_nil_r;
        split_and!; try done; by exists fl.
  - rewrite (detection_callback_bad_address target_macs f a w e) by done.
    eexists; split; [reflexivity|]. simpl.
    destruct (write_fault a); simpl; rewrite !app_nil_r;
      (split_and!; try done; [by exists fl|]);
      by rewrite event_lines_app; simpl; rewrite app_nil_r.
  - by destruct (packet_mac_returns a).
Qed.

(** The same over a whole delivery. *)
Lemma deliver_any_fault l w rows :
  queue_from_line_29 w -> open_with f rows w ->
  exists w',
    deliver (detection_callback target_macs f) l w = (Normal tt, w') /\
    queue_from_line_29 w' /\
    Queue.items (EVENT_QUEUE w')
    = Queue.items (EVENT_QUEUE w) ++ events_of target_macs l /\
    open_with f (rows ++ map event_row (written_events target_macs l)) w' /\
    event_lines (console w')
    = event_lines (console w) ++ map line_of_event (events_of target_macs l).
Proof.
  revert w rows. induction l as [|a l IH]; intros w rows Hq Ho; simpl.
  - exists w. unfold events_of, written_events. simpl.
    by rewrite !app_nil_r.
  - destruct (detection_callback_any_fault a w rows Hq Ho)
      as (w1 & Hc & Hq1 & Hi1 & Ho1 & Hl1).
    destruct (IH w1 _ Hq1 Ho1) as (w' & Hd & Hq' & Hi' & Ho' & Hl').
    exists w'. unfold bind. rewrite Hc. split; [done|]. split; [done|].
    unfold events_of, written_events in *. simpl.
    rewrite !map_app, !app_assoc. split_and!.
    + by rewrite Hi', Hi1.
    + done.
    + by rewrite Hl', Hl1.
Qed.

End AnyFault.

Section RunUnderFaults.

Variables (BASE_DIR : string) (config : Module_ns) (env : Env).

Lemma world_exit_any_fault f w rows :
  queue_from_line_29 w -> open_with f rows w ->
  Queue.items (EVENT_QUEUE (world_exit config env f w))
  = Queue.items (EVENT_QUEUE w) ++ captured config env /\
  open_with f (rows ++ map event_row (written config env))
    (world_exit config env f w) /\
  event_lines (console (world_exit config env f w))
  = event_lines (console w) ++ map line_of_event (captured config env).
Proof.
  intros Hq Ho. unfold world_exit, captured, written.
  destruct (start_fault env) as [e|].
  - simpl. rewrite !app_nil_r. done.
  - destruct (deliver_any_fault (target_macs_of config) f (arrivals env)
                (world_started w) rows Hq Ho)
      as (w' & -> & _ & Hi & Ho' & Hl). simpl.
    split; [done|]. split; [done|]. rewrite Hl. simpl.
    rewrite event_lines_app. simpl. by rewrite app_nil_r.
Qed.

(** The coroutine under any faults of the operating system: what is on
    the queue, in the file and on the console at its end. *)
Lemma scan_loop_any_fault w :
  makedirs_fault env = None -> open_fault env = None ->
  queue_from_line_29 w ->
  Queue.items (EVENT_QUEUE (scan_loop BASE_DIR config env w).2)
  = Queue.items (EVENT_QUEUE w) ++ captured config env /\
  files (scan_loop BASE_DIR config env w).2
    !! RunPath.csv_path BASE_DIR (now env)
  = Some {| durable := header_row :: map event_row (written config env);
            buffered := []; closed := true |} /\
  event_lines (console (scan_loop BASE_DIR config env w).2)
  = event_lines (console w) ++ map line_of_event (captured config env).
Proof.
  intros H1 H2 Hq. rewrite (scan_loop_eq _ _ _ w H1 H2 Hq). simpl.
  set (p := RunPath.csv_path BASE_DIR (now env)).
  set (w0 := world_ready BASE_DIR config env w).
  destruct (world_exit_any_fault p w0 [header_row] Hq)
    as (Hi & (fl & Hf & Hc & Hr) & Hl).
  { eexists. unfold w0, world_ready. simpl. by rewrite lookup_insert_eq. }
  set (wx := world_exit config env p w0) in *.
  set (rc := caught (session_exit env) wx).
  destruct (caught_frame (session_exit env) wx) as (_ & Hcq & Hcf).
  destruct (caught_quiet (session_exit env) wx) as (cl & Hcc & Fcl).
  destruct (torn_down_frame (stop_fault env) rc) as (_ & Htc & Htq & Htf).
  destruct (closed_world_frame p (torn_down (stop_fault env) rc).2)
    as (_ & Hzc & Hzq).
  fold rc in Hcq, Hcf, Hcc. split_and!.
  - by rewrite Hzq, Htq, Hcq, Hi.
  - rewrite (closed_world_closed p _ fl); [|by rewrite Htf, Hcf].
    unfold file_rows in Hr. by rewrite Hr.
  - rewrite Hzc, Htc, Hcc, event_lines_app.
    change (event_lines cl) with (List.filter is_event_line cl).
    rewrite Fcl, app_nil_r, Hl. unfold w0, world_ready. simpl.
    rewrite event_lines_app. case_bool_decide; simpl; by rewrite app_nil_r.
Qed.

End RunUnderFaults.


(** X2.  The console and the queue agree: the event lines printed during
    a run are, in order, the lines of the events the run put on the
    queue, whatever writes or flushes were refused. *)
Theorem console_agrees_with_queue
    (BASE_DIR : string) (config : Module_ns) (env : Env) (w : World) :
  makedirs_fault env = None -> open_fault env = None ->
  queue_from_line_29 w ->
  exists evs,
    Queue.items (EVENT_QUEUE (main BASE_DIR config env w).2)
    = Queue.items (EVENT_QUEUE w) ++ evs /\
    event_lines (console (main BASE_DIR config env w).2)
    = event_lines (console w) ++ map line_of_event evs.
Proof.
  intros H1 H2 Hq. exists (captured config env).
  destruct (scan_loop_any_fault BASE_DIR config env w H1 H2 Hq)
    as (Hi & _ & Hl).
  destruct (main_frame BASE_DIR config env w) as ((cl & Hc & Fcl) & Hmq & _).
  split; [by rewrite Hmq|].
  rewrite Hc, event_lines_app, Hl.
  change (event_lines cl) with (List.filter is_event_line cl).
  by rewrite Fcl, app_nil_r.
Qed.


Lemma console_agrees_with_queue_witness :
  makedirs_fault Demo.faulty_run = None /\
  open_fault Demo.faulty_run = None /\
  queue_from_line_29 initial_world /\
  exists evs,
    Queue.items
      (EVENT_QUEUE (main Demo.BASE_DIR config_py Demo.faulty_run
                      initial_world).2)
    = Queue.items (EVENT_QUEUE initial_world) ++ evs /\
    event_lines
      (console (main Demo.BASE_DIR config_py Demo.faulty_run initial_world).2)
    = event_lines (console initial_world) ++ map line_of_event evs.
Proof.
  split; [reflexivity|]. split; [reflexivity|]. split; [reflexivity|].
  apply (console_agrees_with_queue Demo.BASE_DIR config_py Demo.faulty_run
           initial_world); reflexivity.
Defined.

(** ** The header row and the buffer *)

Lemma event_of_cases tm a :
  event_of tm a = [] \/
  exists mac, packet_mac a = Normal mac /\ mac ∈ tm /\
    event_of tm a
    = [{| ev_timestamp_ns := time_ns a; ev_mac := mac;
          ev_rssi := rssi (advertisement_data a);
          ev_name := py_or (name (device a)) (PyStr "Unknown") |}].
Proof.
  unfold event_of. destruct (packet_mac a) as [mac|e|]; [|by left..].
  case_bool_decide; [right; by exists mac|by left].
Qed.




(** ** Which packets are matched *)

Lemma lower_empty s : Str.lower s = "" -> s = "".
Proof. by destruct s. Qed.

Lemma elem_target_macs_of config mac :
  mac ∈ target_macs_of config <->
  exists m, m ∈ getattr_default config "TARGET_MACS" [] /\ Str.lower m = mac.
Proof.
  unfold target_macs_of. rewrite elem_of_list_to_set, list_elem_of_In, in_map_iff.
  split; intros (m & H1 & H2); exists m.
  - by rewrite list_elem_of_In.
  - by rewrite <- list_elem_of_In.
Qed.

(** What one handler call puts on the queue, whatever the state of the
    file. *)
Lemma detection_callback_queue tm f a w :
  queue_from_line_29 w ->
  Queue.items (EVENT_QUEUE (detection_callback tm f a w).2)
  = Queue.items (EVENT_QUEUE w) ++ event_of tm a.
Proof.
  intros Hq. unfold event_of.
  destruct (packet_mac a) as [mac|e|] eqn:Hm.
  - case_bool_decide as Hin.
    + unfold detection_callback, try_except_Exception, detection_body, bind,
        lift. rewrite Hm. rewrite bool_decide_eq_true_2 by done.
      unfold print, modify, EVENT_QUEUE_put. simpl.
      rewrite (put_unbounded _ _ Hq). simpl.
      unfold writerow. simpl.
      destruct (files w !! f) as [fl|]; simpl; [|done].
      destruct (closed fl); simpl; [done|].
      destruct (write_fault a); simpl; [done|].
      unfold flush. simpl. rewrite lookup_insert_eq. simpl.
      by destruct (flush_fault a).
    + rewrite (detection_callback_unwatched tm f a w mac) by done.
      by rewrite app_nil_r.
  - rewrite (detection_callback_bad_address tm f a w e) by done.
    simpl. by rewrite app_nil_r.
  - by destruct (packet_mac_returns a).
Qed.



(** X5.  A packet without an address ([None], the empty string) is
    normalized to the empty identifier without any error; unless the
    configured list holds the empty string, the handler ignores it and
    leaves the world, console included, as it was. *)
Theorem absent_address_ignored
    (config : Module_ns) (f : string) (a : Arrival) (w : World) :
  truthy (address (device a)) = false ->
  "" ∉ getattr_default config "TARGET_MACS" [] ->
  packet_mac a = Normal "" /\
  detection_callback (target_macs_of config) f a w = (Normal tt, w).
Proof.
  intros Ht Hn.
  assert (Hm : packet_mac a = Normal "").
  { unfold packet_mac, py_or. by rewrite Ht. }
  split; [exact Hm|].
  apply (detection_callback_unwatched _ f a w "" Hm).
  intros (m & Hin & Hl)%elem_target_macs_of.
  apply lower_empty in Hl. by subst.
Qed.

Lemma absent_address_ignored_witness :
  truthy (address (device Demo.nameless)) = false /\
  ("" ∉ getattr_default config_py "TARGET_MACS" []) /\
  packet_mac Demo.nameless = Normal "" /\
  detection_callback (target_macs_of config_py) "out.csv" Demo.nameless
    initial_world = (Normal tt, initial_world).
Proof.
  assert (Hn : "" ∉ getattr_default config_py "TARGET_MACS" []).
  { vm_compute. intros H. apply list_elem_of_singleton in H. discriminate. }
  split; [reflexivity|]. split; [exact Hn|].
  apply (absent_address_ignored config_py "out.csv" Demo.nameless
           initial_world); [reflexivity|exact Hn].
Defined.

(** X6.  Every event the handler puts on the queue has a name that is
    neither [None] nor empty: the device's name when it has one, the
    string [Unknown] otherwise. *)
Theorem queued_name_defaults
    (target_macs : gset string) (f : string) (a : Arrival) (w : World) :
  queue_from_line_29 w ->
  exists evs,
    Queue.items (EVENT_QUEUE (detection_callback target_macs f a w).2)
    = Queue.items (EVENT_QUEUE w) ++ evs /\
    Forall (fun ev =>
              truthy (ev_name ev) = true /\
              (truthy (name (device a)) = true ->
               ev_name ev = name (device a)) /\
              (truthy (name (device a)) = false ->
               ev_name ev = PyStr "Unknown")) evs.
Proof.
  intros Hq. exists (event_of target_macs a).
  split; [by apply detection_callback_queue|].
  destruct (event_of_cases target_macs a) as [->|(mac & _ & _ & ->)];
    [constructor|].
  constructor; [|constructor]. simpl. unfold py_or.
  destruct (truthy (name (device a))) eqn:Ht; by split_and!.
Qed.

Lemma queued_name_defaults_witness :
  queue_from_line_29 initial_world /\
  exists evs,
    Queue.items
      (EVENT_QUEUE (detection_callback (target_macs_of config_py) "out.csv"
                      Demo.sensor_again initial_world).2)
    = Queue.items (EVENT_QUEUE initial_world) ++ evs /\
    Forall (fun ev =>
              truthy (ev_name ev) = true /\
              (truthy (name (device Demo.sensor_again)) = true ->
               ev_name ev = name (device Demo.sensor_again)) /\
              (truthy (name (device Demo.sensor_again)) = false ->
               ev_name ev = PyStr "Unknown")) evs.
Proof.
  split; [reflexivity|].
  apply (queued_name_defaults (target_macs_of config_py) "out.csv"
           Demo.sensor_again initial_world).
  reflexivity.
Defined.

(** ** What a run leaves alone *)

Section Frame.

Context (R : World -> World -> Prop) `{!PreOrder R}.

Lemma frame_ret {A} (a : A) : frame R (ret a).
Proof. intros w. simpl. reflexivity. Qed.

Lemma frame_raise {A} e : frame R (raise (A:=A) e).
Proof. intros w. simpl. reflexivity. Qed.

Lemma frame_lift {A} (r : result A) : frame R (lift r).
Proof. intros w. simpl. reflexivity. Qed.

Lemma frame_bind {A B} (m : M World A) (k : A -> M World B) :
  frame R m -> (forall a, frame R (k a)) -> frame R (bind m k).
Proof.
  intros Hm Hk w. unfold bind. specialize (Hm w).
  destruct (m w) as [[a|e|] w1]; simpl in *; [|done|done].
  etrans; [exact Hm|apply Hk].
Qed.

Lemma frame_try_except {A} (body : M World A) handler :
  frame R body -> (forall e, frame R (handler e)) ->
  frame R (try_except_Exception body handler).
Proof.
  intros Hb Hh w. unfold try_except_Exception. specialize (Hb w).
  destruct (body w) as [[a|e|] w1]; simpl in *; [done| |done].
  destruct (isinstance_Exception e); [|done].
  etrans; [exact Hb|apply Hh].
Qed.

Lemma frame_try_finally {A} (body : M World A) cleanup :
  frame R body -> frame R cleanup -> frame R (try_finally body cleanup).
Proof.
  intros Hb Hc w. unfold try_finally. specialize (Hb w).
  destruct (body w) as [[a|e|] w1]; simpl in *; [| |done];
    specialize (Hc w1); destruct (cleanup w1) as [[[]|e'|] w2]; simpl in *;
    by etrans.
Qed.

Lemma frame_deliver callback l :
  (forall a, frame R (callback a)) -> frame R (deliver callback l).
Proof.
  intros Hc. induction l as [|a l IH]; simpl; [apply frame_ret|].
  apply frame_bind; [apply Hc|done].
Qed.

Lemma frame_asyncio_run {A} (coro : M World A) :
  frame R coro -> frame R (asyncio_run coro).
Proof.
  intros Hc w. unfold asyncio_run. specialize (Hc w).
  destruct (coro w) as [[a|e|] w1]; simpl in *; [done| |done].
  by destruct e.
Qed.

End Frame.

#[global] Instance extends_preorder (p : string) : PreOrder (extends p).
Proof.
  split.
  - intros w. by split_and!.
  - intros w1 w2 w3 (C1 & Q1 & D1 & F1) (C2 & Q2 & D2 & F2). split_and!.
    + by etrans.
    + by etrans.
    + by etrans.
    + intros q Hq. by rewrite F2, F1.
Qed.

Section Extends.

Variable p : string.

Lemma extends_print l : frame (extends p) (print l).
Proof.
  intros w. unfold print, modify. simpl. split_and!; try done.
  by apply prefix_app_r.
Qed.

Lemma extends_put item : frame (extends p) (EVENT_QUEUE_put item).
Proof.
  intros w. unfold EVENT_QUEUE_put, Queue.put.
  destruct (Queue.full (EVENT_QUEUE w)); simpl; split_and!; try done.
  by apply prefix_app_r.
Qed.

Lemma extends_writerow row fault : frame (extends p) (writerow p row fault).
Proof.
  intros w. unfold writerow. destruct (files w !! p) as [fl|]; [|done].
  destruct (closed fl); [done|]. destruct fault; [done|]. simpl.
  split_and!; try done. intros q Hq. simpl. by rewrite lookup_insert_ne.
Qed.

Lemma extends_flush fault : frame (extends p) (flush p fault).
Proof.
  intros w. unfold flush. destruct (files w !! p) as [fl|]; [|done].
  destruct (closed fl); [done|]. destruct fault; [done|]. simpl.
  split_and!; try done. intros q Hq. simpl. by rewrite lookup_insert_ne.
Qed.

Lemma extends_close : frame (extends p) (close p).
Proof.
  intros w. unfold close, modify. simpl.
  destruct (files w !! p) as [fl|]; [|done]. simpl.
  split_and!; try done. intros q Hq. simpl. by rewrite lookup_insert_ne.
Qed.

Lemma extends_open fault : frame (extends p) (open_w p fault).
Proof.
  intros w. unfold open_w. destruct fault; [done|]. simpl.
  split_and!; try done. intros q Hq. simpl. by rewrite lookup_insert_ne.
Qed.

Lemma extends_makedirs BASE_DIR path fault :
  frame (extends p) (makedirs BASE_DIR path fault).
Proof.
  intros w. unfold makedirs. destruct fault; [done|]. simpl.
  split_and!; try done. set_solver.
Qed.

Lemma extends_radio (m : M World unit) :
  (forall w, console (m w).2 = console w /\
             EVENT_QUEUE (m w).2 = EVENT_QUEUE w /\
             dirs (m w).2 = dirs w /\ files (m w).2 = files w) ->
  frame (extends p) m.
Proof.
  intros H w. destruct (H w) as (Hc & Hq & Hd & Hf).
  unfold extends. rewrite Hc, Hq, Hd, Hf. done.
Qed.

Lemma extends_scanner_new : frame (extends p) scanner_new.
Proof. by apply extends_radio. Qed.

Lemma extends_scanner_start fault : frame (extends p) (scanner_start fault).
Proof. apply extends_radio. intros w. by destruct fault. Qed.

Lemma extends_scanner_stop fault : frame (extends p) (scanner_stop fault).
Proof. apply extends_radio. intros w. by destruct fault. Qed.

Lemma extends_detection_callback tm a :
  frame (extends p) (detection_callback tm p a).
Proof.
  apply frame_try_except; [apply _| |intros e; apply extends_print].
  unfold detection_body. apply frame_bind; [apply _|apply frame_lift; apply _|].
  intros mac. case_bool_decide; [|apply frame_ret; apply _].
  apply frame_bind; [apply _|apply extends_print|intros _].
  apply frame_bind; [apply _|apply extends_put|intros _].
  apply frame_bind; [apply _|apply extends_writerow|intros _].
  apply extends_flush.
Qed.

Lemma extends_scan_session config env :
  frame (extends p) (scan_session config env p).
Proof.
  unfold scan_session. apply frame_bind; [apply _| |intros _].
  { unfold session_prelude.
    apply frame_bind; [apply _|apply extends_writerow|intros _]. simpl.
    apply frame_bind; [apply _| |intros _; apply extends_scanner_new].
    case_bool_decide; [apply extends_print|apply frame_ret; apply _]. }
  apply frame_try_finally; [apply _| |].
  - apply frame_try_except; [apply _| |intros e; apply extends_print].
    unfold session_running.
    apply frame_bind; [apply _|apply extends_scanner_start|intros _].
    apply frame_bind; [apply _|apply extends_print|intros _].
    apply frame_bind; [apply _| |intros _; apply frame_raise; apply _].
    apply frame_deliver; [apply _|]. intros a.
    apply extends_detection_callback.
  - unfold session_teardown.
    apply frame_try_except;
      [apply _|apply extends_scanner_stop|intros e; apply frame_ret; apply _].
Qed.

End Extends.

(** The coroutine and [main] extend the world and touch no file but the
    one of the run. *)
Lemma extends_scan_loop BASE_DIR config env :
  frame (extends (RunPath.csv_path BASE_DIR (now env)))
    (scan_loop BASE_DIR config env).
Proof.
  intros w. set (p := RunPath.csv_path BASE_DIR (now env)).
  unfold scan_loop, ensure_output_folder, bind, makedirs.
  destruct (makedirs_fault env); [done|]. simpl.
  unfold with_open_w, bind, open_w.
  destruct (open_fault env); simpl.
  { split_and!; try done. set_solver. }
  pose proof (frame_try_finally (extends p) (scan_session config env p)
                (close p) (extends_scan_session p config env)
                (extends_close p) (world_opened BASE_DIR env w)) as Hf.
  etrans; [|exact Hf].
  unfold world_opened. split_and!; try done; [simpl; set_solver|].
  intros q Hq. simpl. by rewrite lookup_insert_ne.
Qed.

Lemma extends_main BASE_DIR config env :
  frame (extends (RunPath.csv_path BASE_DIR (now env)))
    (main BASE_DIR config env).
Proof.
  intros w. set (p := RunPath.csv_path BASE_DIR (now env)).
  unfold main.
  pose proof (frame_asyncio_run (extends p) _
                (extends_scan_loop BASE_DIR config env) w) as H.
  fold p in H.
  destruct (asyncio_run (scan_loop BASE_DIR config env) w)
    as [[[]|e|] w1]; simpl in *; [done| |done].
  destruct e; simpl; try done;
    (etrans; [exact H|apply extends_print]).
Qed.

(** X7.  A run touches no output file of a run started in another
    second: whatever happens during the run, the file an earlier or later
    start time names is afterwards what it was before. *)
Theorem other_runs_files_untouched
    (BASE_DIR : string) (config : Module_ns) (env : Env) (w : World)
    (d : RunPath.datetime) :
  RunPath.valid (now env) -> RunPath.valid d ->
  ~ RunPath.same_second (now env) d ->
  files (main BASE_DIR config env w).2 !! RunPath.csv_path BASE_DIR d
  = files w !! RunPath.csv_path BASE_DIR d.
Proof.
  intros V1 V2 Hs.
  destruct (extends_main BASE_DIR config env w) as (_ & _ & _ & Hf).
  apply Hf. intros Heq. apply Hs.
  by apply (RunPathFacts.csv_path_inj BASE_DIR).
Qed.

Lemma other_runs_files_untouched_witness :
  RunPath.valid (now (Demo.interrupted Demo.t_early [Demo.sensor])) /\
  RunPath.valid Demo.t_next /\
  ~ RunPath.same_second
      (now (Demo.interrupted Demo.t_early [Demo.sensor])) Demo.t_next /\
  files (main Demo.BASE_DIR config_py
           (Demo.interrupted Demo.t_early [Demo.sensor])
           Demo.disk_with_earlier_run).2
    !! RunPath.csv_path Demo.BASE_DIR Demo.t_next
  = Some Demo.earlier_file.
Proof.
  assert (V1 : RunPath.valid
                 (now (Demo.interrupted Demo.t_early [Demo.sensor])))
    by (unfold RunPath.valid; simpl; lia).
  assert (V2 : RunPath.valid Demo.t_next)
    by (unfold RunPath.valid; simpl; lia).
  assert (Hs : ~ RunPath.same_second
                   (now (Demo.interrupted Demo.t_early [Demo.sensor]))
                   Demo.t_next).
  { intros (_ & _ & _ & _ & _ & H). simpl in H. discriminate. }
  split; [exact V1|]. split; [exact V2|]. split; [exact Hs|].
  rewrite (other_runs_files_untouched Demo.BASE_DIR config_py
             (Demo.interrupted Demo.t_early [Demo.sensor])
             Demo.disk_with_earlier_run Demo.t_next V1 V2 Hs).
  vm_compute. reflexivity.
Defined.

(** X8.  The program takes nothing away: after [main], the console and
    the queue are those of before with entries added at their ends (the
    program never takes an event off the queue), and every folder that
    existed still exists. *)
Theorem main_takes_nothing_away
    (BASE_DIR : string) (config : Module_ns) (env : Env) (w : World) :
  console w `prefix_of` console (main BASE_DIR config env w).2 /\
  Queue.items (EVENT_QUEUE w)
    `prefix_of` Queue.items (EVENT_QUEUE (main BASE_DIR config env w).2) /\
  dirs w ⊆ dirs (main BASE_DIR config env w).2.
Proof.
  destruct (extends_main BASE_DIR config env w) as (Hc & Hq & Hd & _).
  done.
Qed.

(** ** The shape of the output path *)

Module PathShape.
Import RunPath.

#[local] Arguments String.append !_ _ / : simpl nomatch.

Lemma append_nonempty s t : t <> "" -> s +:+ t <> "".
Proof. destruct s; simpl; [done|discriminate]. Qed.

Lemma ends_with_sep_append s t :
  t <> "" -> ends_with_sep (s +:+ t) = ends_with_sep t.
Proof.
  intros Ht. induction s as [|c s IH]; simpl; [done|].
  rewrite IH. destruct (s +:+ t) eqn:E; [|done].
  by destruct (append_nonempty s t Ht).
Qed.

Lemma join2_plain path b :
  plain_dir path -> starts_with_sep b = false ->
  join2 path b = path +:+ "/" +:+ b.
Proof.
  intros [Hne He] Hb. unfold join2. rewrite Hb, He.
  apply String.eqb_neq in Hne. by rewrite Hne.
Qed.

Lemma plain_dir_step path b :
  b <> "" -> ends_with_sep b = false -> plain_dir (path +:+ "/" +:+ b).
Proof.
  intros Hb He. split.
  - apply append_nonempty. by apply (append_nonempty "/").
  - rewrite ends_with_sep_append by by apply (append_nonempty "/").
    by rewrite (ends_with_sep_append "/").
Qed.

Lemma strftime_plain d :
  valid d ->
  strftime d <> "" /\ ends_with_sep (strftime d) = false /\
  starts_with_sep (strftime d) = false.
Proof.
  intros V. split; [done|]. split; [|by apply RunPathFacts.strftime_not_abs].
  cbv [strftime pad4 pad2 String.append ends_with_sep].
  apply RunPathFacts.digit_not_sep, RunPathFacts.mod_lt_10.
Qed.

Lemma run_folder_plain BASE_DIR d :
  plain_dir BASE_DIR -> valid d ->
  run_folder BASE_DIR d
  = BASE_DIR +:+ "/" +:+ "data" +:+ "/" +:+ "runs" +:+ "/" +:+ strftime d.
Proof.
  intros HB V. destruct (strftime_plain d V) as (Hne & He & Hs).
  unfold run_folder, join. cbn [fold_left].
  rewrite (join2_plain BASE_DIR "data") by done.
  rewrite (join2_plain _ "runs"); [|by apply plain_dir_step|done].
  rewrite (join2_plain _ (strftime d));
    [|by apply plain_dir_step|done].
  by rewrite !RunPathFacts.append_assoc.
Qed.

Lemma csv_path_plain BASE_DIR d :
  plain_dir BASE_DIR -> valid d ->
  csv_path BASE_DIR d
  = run_folder BASE_DIR d +:+ "/" +:+
    "ble_events_" +:+ strftime d +:+ ".csv".
Proof.
  intros HB V. destruct (strftime_plain d V) as (Hne & He & Hs).
  unfold csv_path, join. cbn [fold_left].
  rewrite join2_plain; [done| |done].
  rewrite (run_folder_plain BASE_DIR d HB V).
  replace (BASE_DIR +:+ "/" +:+ "data" +:+ "/" +:+ "runs" +:+ "/" +:+
           strftime d)
    with ((BASE_DIR +:+ "/" +:+ "data" +:+ "/" +:+ "runs") +:+ "/" +:+
          strftime d)
    by (by rewrite !RunPathFacts.append_assoc).
  by apply plain_dir_step.
Qed.

End PathShape.

(** X9.  For a base directory that is not empty and does not end in a
    separator, and a start time with fields in range,
    [ensure_output_folder] returns
    [BASE_DIR/data/runs/<stamp>/ble_events_<stamp>.csv] with the 15
    character stamp of the start time; the folder of that file exists
    afterwards, and no file, console line, queue entry or radio call is
    made. *)
Theorem ensure_output_folder_path
    (BASE_DIR : string) (d : RunPath.datetime) (w : World) :
  plain_dir BASE_DIR -> RunPath.valid d ->
  exists w',
    ensure_output_folder BASE_DIR d None w
    = (Normal (BASE_DIR +:+ "/" +:+ "data" +:+ "/" +:+ "runs" +:+ "/" +:+
               RunPath.strftime d +:+ "/" +:+
               "ble_events_" +:+ RunPath.strftime d +:+ ".csv"), w') /\
    String.length (RunPath.strftime d) = 15%nat /\
    (BASE_DIR +:+ "/" +:+ "data" +:+ "/" +:+ "runs" +:+ "/" +:+
     RunPath.strftime d) ∈ dirs w' /\
    files w' = files w /\ console w' = console w /\
    EVENT_QUEUE w' = EVENT_QUEUE w /\ radio w' = radio w.
Proof.
  intros HB V. eexists. split; [|split; [reflexivity|]].
  - unfold ensure_output_folder, bind, makedirs, ret. simpl.
    f_equal. f_equal.
    change (RunPath.csv_path BASE_DIR d = 
            BASE_DIR +:+ "/" +:+ "data" +:+ "/" +:+ "runs" +:+ "/" +:+
            RunPath.strftime d +:+ "/" +:+
            "ble_events_" +:+ RunPath.strftime d +:+ ".csv").
    rewrite (PathShape.csv_path_plain BASE_DIR d HB V).
    rewrite (PathShape.run_folder_plain BASE_DIR d HB V).
    by rewrite !RunPathFacts.append_assoc.
  - simpl. split; [|done].
    change (RunPath.join BASE_DIR ["data"; "runs"; RunPath.strftime d])
      with (RunPath.run_folder BASE_DIR d).
    rewrite <- (PathShape.run_folder_plain BASE_DIR d HB V). set_solver.
Qed.

Lemma ensure_output_folder_path_witness :
  plain_dir Demo.BASE_DIR /\ RunPath.valid Demo.t_early /\
  exists w',
    ensure_output_folder Demo.BASE_DIR Demo.t_early None initial_world
    = (Normal "/home/pi/ble/data/runs/20261104_090507/ble_events_20261104_090507.csv",
       w') /\
    "/home/pi/ble/data/runs/20261104_090507" ∈ dirs w'.
Proof.
  assert (HB : plain_dir Demo.BASE_DIR) by (split; [discriminate|reflexivity]).
  assert (V : RunPath.valid Demo.t_early)
    by (unfold RunPath.valid; simpl; lia).
  split; [exact HB|]. split; [exact V|].
  destruct (ensure_output_folder_path Demo.BASE_DIR Demo.t_early
              initial_world HB V) as (w' & He & _ & Hd & _).
  exists w'. split; [exact He|exact Hd].
Defined.

(** X10.  [makedirs] with [exist_ok=True]: calling
    [ensure_output_folder] again for the same start time, the folders
    being there already, raises nothing, returns the same path and
    changes nothing. *)
Theorem ensure_output_folder_again
    (BASE_DIR : string) (d : RunPath.datetime) (w : World) :
  ensure_output_folder BASE_DIR d None
    (ensure_output_folder BASE_DIR d None w).2
  = ensure_output_folder BASE_DIR d None w.
Proof.
  unfold ensure_output_folder, bind, makedirs, ret. simpl.
  f_equal. unfold set_dirs. simpl. f_equal.
  rewrite (assoc_L (∪)). by rewrite (idemp_L (∪)).
Qed.

(** ** How a run ends *)

(** X11.  A run that cannot create its folder or open its file ends
    before any radio call: [main] prints one line with the error and
    returns; no file is created or changed, and the queue and the radio
    are as before. *)
Theorem startup_failure_touches_nothing
    (BASE_DIR : string) (config : Module_ns) (env : Env) (w : World) :
  makedirs_fault env <> None \/
  (makedirs_fault env = None /\ open_fault env <> None) ->
  exists msg,
    (makedirs_fault env = Some msg \/ open_fault env = Some msg) /\
    (main BASE_DIR config env w).1 = Normal tt /\
    console (main BASE_DIR config env w).2
    = console w ++ [LUnexpected (OSError msg)] /\
    radio (main BASE_DIR config env w).2 = radio w /\
    EVENT_QUEUE (main BASE_DIR config env w).2 = EVENT_QUEUE w /\
    files (main BASE_DIR config env w).2 = files w.
Proof.
  intros [H|[H1 H2]].
  - destruct (makedirs_fault env) as [msg|] eqn:E; [|done].
    exists msg. split; [by left|].
    unfold main, asyncio_run.
    by rewrite (scan_loop_makedirs_fails BASE_DIR config env w msg E).
  - destruct (open_fault env) as [msg|] eqn:E; [|done].
    exists msg. split; [by right|].
    destruct (scan_loop_open_fails BASE_DIR config env w msg H1 E)
      as (w' & Hs & Hc & Hr & Hq & Hf).
    unfold main, asyncio_run. rewrite Hs. simpl.
    by rewrite Hc, Hr, Hq, Hf.
Qed.

Lemma startup_failure_touches_nothing_witness :
  (makedirs_fault Demo.folder_fails <> None \/
   (makedirs_fault Demo.folder_fails = None /\
    open_fault Demo.folder_fails <> None)) /\
  exists msg,
    (makedirs_fault Demo.folder_fails = Some msg \/
     open_fault Demo.folder_fails = Some msg) /\
    (main Demo.BASE_DIR config_py Demo.folder_fails initial_world).1
    = Normal tt /\
    console (main Demo.BASE_DIR config_py Demo.folder_fails initial_world).2
    = console initial_world ++ [LUnexpected (OSError msg)] /\
    radio (main Demo.BASE_DIR config_py Demo.folder_fails initial_world).2
    = radio initial_world /\
    EVENT_QUEUE
      (main Demo.BASE_DIR config_py Demo.folder_fails initial_world).2
    = EVENT_QUEUE initial_world /\
    files (main Demo.BASE_DIR config_py Demo.folder_fails initial_world).2
    = files initial_world.
Proof.
  assert (H : makedirs_fault Demo.folder_fails <> None \/
              (makedirs_fault Demo.folder_fails = None /\
               open_fault Demo.folder_fails <> None))
    by (left; discriminate).
  split; [exact H|].
  apply (startup_failure_touches_nothing Demo.BASE_DIR config_py
           Demo.folder_fails initial_world H).
Defined.

(** The outcome and the console of the coroutine by the exception that
    leaves its [try] block, when the stop call lets no [BaseException]
    out. *)
Lemma scan_loop_exit_console BASE_DIR config env w :
  makedirs_fault env = None -> open_fault env = None ->
  queue_from_line_29 w ->
  (forall e, stop_fault env = Some e -> isinstance_Exception e = true) ->
  scan_loop BASE_DIR config env w
  = ((caught (session_exit env)
        (world_exit config env (RunPath.csv_path BASE_DIR (now env))
           (world_ready BASE_DIR config env w))).1,
     (scan_loop BASE_DIR config env w).2) /\
  console (scan_loop BASE_DIR config env w).2
  = console (caught (session_exit env)
               (world_exit config env (RunPath.csv_path BASE_DIR (now env))
                  (world_ready BASE_DIR config env w))).2.
Proof.
  intros H1 H2 Hq Hs. rewrite (scan_loop_eq _ _ _ w H1 H2 Hq). simpl.
  set (rc := caught _ _).
  destruct (closed_world_frame (RunPath.csv_path BASE_DIR (now env))
              (torn_down (stop_fault env) rc).2) as (_ & -> & _).
  destruct (torn_down_frame (stop_fault env) rc) as (_ & -> & _).
  split; [|done]. f_equal. unfold torn_down.
  destruct (stop_fault env) as [e|] eqn:E; [|done].
  by rewrite (Hs e eq_refl).
Qed.

(** X12.  The last line on the console tells how the run ended: when the
    exception that leaves the [try] block (a failed start, or an error
    thrown into the loop) derives from [Exception], the last line is the
    scanning error with that exception and "stopped by user" is not
    printed; when it is the interrupt, the last line is "stopped by
    user".  In both cases [main] returns normally. *)
Theorem last_line_tells_the_cause
    (BASE_DIR : string) (config : Module_ns) (env : Env) (w : World) :
  makedirs_fault env = None -> open_fault env = None ->
  queue_from_line_29 w ->
  (forall e, stop_fault env = Some e -> isinstance_Exception e = true) ->
  (main BASE_DIR config env w).1 = Normal tt /\
  last (console (main BASE_DIR config env w).2)
  = Some (if isinstance_Exception (session_exit env)
          then LScanError (session_exit env)
          else LStoppedByUser).
Proof.
  intros H1 H2 Hq Hs.
  destruct (scan_loop_exit_console BASE_DIR config env w H1 H2 Hq Hs)
    as [Hr Hc].
  unfold main, asyncio_run. rewrite Hr. unfold caught in *.
  destruct (isinstance_Exception (session_exit env)) eqn:Hi; simpl in *.
  - split; [done|]. rewrite Hc. apply last_snoc.
  - destruct (session_exit env); simpl in *; try discriminate;
      (split; [done|]; apply last_snoc).
Qed.

Lemma last_line_tells_the_cause_witness :
  makedirs_fault Demo.radio_fails = None /\
  open_fault Demo.radio_fails = None /\
  queue_from_line_29 initial_world /\
  (forall e, stop_fault Demo.radio_fails = Some e ->
             isinstance_Exception e = true) /\
  (main Demo.BASE_DIR config_py Demo.radio_fails initial_world).1
  = Normal tt /\
  last (console (main Demo.BASE_DIR config_py Demo.radio_fails
                   initial_world).2)
  = Some (LScanError (BleakError "Bluetooth device is turned off")).
Proof.
  assert (Hs : forall e, stop_fault Demo.radio_fails = Some e ->
                         isinstance_Exception e = true)
    by (intros e H; discriminate).
  split; [reflexivity|]. split; [reflexivity|]. split; [reflexivity|].
  split; [exact Hs|].
  apply (last_line_tells_the_cause Demo.BASE_DIR config_py Demo.radio_fails
           initial_world eq_refl eq_refl eq_refl Hs).
Defined.



(** ** The watchlist *)

Lemma map_lower_differ_only_in_case l1 l2 :
  Forall2 Str.differ_only_in_case l1 l2 ->
  map Str.lower l1 = map Str.lower l2.
Proof.
  induction 1 as [|r1 r2 l1 l2 H _ IH]; simpl; [done|].
  by rewrite (StrFacts.lower_differ_only_in_case r1 r2 H), IH.
Qed.

(** X14.  The letter case in which the configured list is written does
    not matter: two configurations whose lists differ, entry by entry,
    only in letter case give the same watchlist and the same run. *)
Theorem watchlist_case_irrelevant
    (BASE_DIR : string) (config1 config2 : Module_ns) (env : Env)
    (w : World) :
  Forall2 Str.differ_only_in_case
    (getattr_default config1 "TARGET_MACS" [])
    (getattr_default config2 "TARGET_MACS" []) ->
  target_macs_of config1 = target_macs_of config2 /\
  main BASE_DIR config1 env w = main BASE_DIR config2 env w.
Proof.
  intros H.
  assert (Ht : target_macs_of config1 = target_macs_of config2).
  { unfold target_macs_of. by rewrite (map_lower_differ_only_in_case _ _ H). }
  split; [exact Ht|]. unfold main, asyncio_run.
  by rewrite (scan_loop_same_watchlist BASE_DIR config1 env config2 w Ht).
Qed.

Lemma watchlist_case_irrelevant_witness :
  Forall2 Str.differ_only_in_case
    (getattr_default Demo.config_small "TARGET_MACS" [])
    (getattr_default config_py "TARGET_MACS" []) /\
  target_macs_of Demo.config_small = target_macs_of config_py /\
  main Demo.BASE_DIR Demo.config_small
    (Demo.interrupted Demo.t_early [Demo.sensor]) initial_world
  = main Demo.BASE_DIR config_py
      (Demo.interrupted Demo.t_early [Demo.sensor]) initial_world.
Proof.
  assert (H : Forall2 Str.differ_only_in_case
                (getattr_default Demo.config_small "TARGET_MACS" [])
                (getattr_default config_py "TARGET_MACS" [])).
  { constructor; [exact sensor_address_differs_in_case|constructor]. }
  split; [exact H|].
  apply (watchlist_case_irrelevant Demo.BASE_DIR Demo.config_small config_py
           (Demo.interrupted Demo.t_early [Demo.sensor]) initial_world H).
Defined.
